(** * Item inventory service: request handlers over a transactional store

    A shallow embedding of [item_app/models.py], [item_app/database.py] and
    [item_app/main.py].  The handlers are written in a small state-and-exception
    monad whose state is the SQLAlchemy session together with the durable table
    behind it; the store can raise at every call that reaches the database,
    which is decided by an oracle carried in the state.  The columns of the
    table are signed 64-bit integers and text: binding an integer outside
    that range raises before the store is asked.  The logger, the
    templates and the static files take no part in what is proved here, and
    neither does the home page, which only reads. *)

From stdpp Require Import gmap strings list fin_maps pretty sorting.

Set Warnings "-register-all".
Set Default Proof Using "Type".
Open Scope Z_scope.

(** ** Python values

    What [request.json()] returns, and what reaches the keyword arguments of a
    pydantic model.  A float is kept as mantissa and exponent; no handler
    computes with it. *)

Inductive pyval :=
| PNone
| PBool (b : bool)
| PInt (z : Z)
| PFloat (m e : Z)
| PStr (s : string)
| PList (l : list pyval)
| PDict (d : gmap string pyval).

(** ** Exceptions *)

Inductive exn :=
| HTTPException (status_code : Z) (detail : string)
| SQLAlchemyError
| ValidationError
| OtherException.  (* TypeError, JSONDecodeError, OverflowError, ... *)

Module status.
Definition HTTP_200_OK : Z := 200.
Definition HTTP_400_BAD_REQUEST : Z := 400.
Definition HTTP_404_NOT_FOUND : Z := 404.
Definition HTTP_422_UNPROCESSABLE_ENTITY : Z := 422.
Definition HTTP_500_INTERNAL_SERVER_ERROR : Z := 500.
Definition HTTP_503_SERVICE_UNAVAILABLE : Z := 503.
End status.

(** ** models.py

    [Item] is the mapped object: its primary key is [None] until the object
    has been flushed.  [Row] is what the table [items] keeps under a primary
    key: the four other columns. *)

Record Item := mkItem {
  id : option Z;
  name : string;
  description : string;
  price : Z;
  quantity : Z
}.

Record Row := mkRow {
  row_name : string;
  row_description : string;
  row_price : Z;
  row_quantity : Z
}.

Definition row_of (it : Item) : Row :=
  mkRow (name it) (description it) (price it) (quantity it).

Definition load (k : Z) (r : Row) : Item :=
  mkItem (Some k) (row_name r) (row_description r) (row_price r) (row_quantity r).

(** Attribute assignments [db_item.x = v]. *)
Definition set_name (v : string) (it : Item) : Item :=
  mkItem (id it) v (description it) (price it) (quantity it).
Definition set_description (v : string) (it : Item) : Item :=
  mkItem (id it) (name it) v (price it) (quantity it).
Definition set_price (v : Z) (it : Item) : Item :=
  mkItem (id it) (name it) (description it) v (quantity it).
Definition set_quantity (v : Z) (it : Item) : Item :=
  mkItem (id it) (name it) (description it) (price it) v.
Definition set_id (v : option Z) (it : Item) : Item :=
  mkItem v (name it) (description it) (price it) (quantity it).

(** An [Integer] column holds a signed 64-bit value.  Binding a Python
    integer outside that range as a statement parameter raises
    OverflowError. *)
Definition INT64_MIN : Z := - 2 ^ 63.
Definition INT64_MAX : Z := 2 ^ 63 - 1.

Definition in_int64 (z : Z) : Prop := INT64_MIN ≤ z ≤ INT64_MAX.

#[global] Instance in_int64_dec (z : Z) : Decision (in_int64 z).
Proof. unfold in_int64. apply _. Defined.

(** The integer attributes of an object can be bound. *)
Definition storable (it : Item) : Prop :=
  in_int64 (price it) ∧ in_int64 (quantity it).

#[global] Instance storable_dec (it : Item) : Decision (storable it).
Proof. unfold storable. apply _. Defined.

(** ** The store and the session

    [table] is the durable content of [items], keyed by primary key.  The
    other fields are the session of [database.py]: the objects it has handed
    out ([heap], addressed by position), the pending inserts ([new]), the
    pending deletes ([deleted]) and the persistent objects it tracks
    ([identity_map]).  [oracle] decides the outcome of the next calls that
    reach the database; an exhausted oracle means no further fault. *)

Inductive fault :=
| DBError      (* raised as SQLAlchemyError *)
| OtherError.  (* any exception that is not an SQLAlchemyError *)

Record World := mkWorld {
  table : gmap Z Row;
  oracle : list (option fault);
  heap : list Item;
  new : list nat;
  deleted : list nat;
  identity_map : list nat
}.

Definition with_oracle (o : list (option fault)) (w : World) : World :=
  mkWorld (table w) o (heap w) (new w) (deleted w) (identity_map w).
Definition with_heap (h : list Item) (w : World) : World :=
  mkWorld (table w) (oracle w) h (new w) (deleted w) (identity_map w).
Definition with_new (l : list nat) (w : World) : World :=
  mkWorld (table w) (oracle w) (heap w) l (deleted w) (identity_map w).
Definition with_deleted (l : list nat) (w : World) : World :=
  mkWorld (table w) (oracle w) (heap w) (new w) l (identity_map w).
Definition with_identity_map (l : list nat) (w : World) : World :=
  mkWorld (table w) (oracle w) (heap w) (new w) (deleted w) l.

(** ** The monad of handler code *)

Definition M (A : Type) : Type := World → (exn + A) * World.

Definition ret {A} (a : A) : M A := λ w, (inr a, w).
Definition raise {A} (e : exn) : M A := λ w, (inl e, w).
Definition bind {A B} (m : M A) (k : A → M B) : M B :=
  λ w, match m w with
       | (inr a, w') => k a w'
       | (inl e, w') => (inl e, w')
       end.

(** [try: body except ...: h]: [h e] is [None] when no clause matches [e]. *)
Definition try_except {A} (body : M A) (h : exn → option (M A)) : M A :=
  λ w, match body w with
       | (inr a, w') => (inr a, w')
       | (inl e, w') =>
           match h e with
           | Some k => k w'
           | None => (inl e, w')
           end
       end.

Definition modify (f : World → World) : M unit := λ w, (inr tt, f w).

Declare Scope py_scope.
Delimit Scope py_scope with py.
Notation "'let*' x ':=' c 'in' k" := (bind c (λ x, k))
  (at level 10, x name, c at level 100, k at level 200) : py_scope.
Notation "c ';;' k" := (bind c (λ _, k))
  (at level 100, k at level 200, right associativity) : py_scope.
Open Scope py_scope.

(** ** The session of database.py, as far as the handlers use it *)

(** Every call that reaches the database first asks the oracle. *)
Definition db_call : M unit :=
  λ w, match oracle w with
       | [] => (inr tt, w)
       | None :: o => (inr tt, with_oracle o w)
       | Some DBError :: o => (inl SQLAlchemyError, with_oracle o w)
       | Some OtherError :: o => (inl OtherException, with_oracle o w)
       end.

(** A row inserted without a key gets the largest key in use plus one, and 1
    when the table is empty.  When the largest key in use is the largest
    integer, the engine searches for an unused positive key at random, and
    reports that the table is full when it finds none.  The random search is
    a parameter: what is proved holds for every outcome of it. *)
Definition max_rowid (t : gmap Z Row) : option Z :=
  map_fold (λ k _ acc, Some (from_option (Z.max k) k acc)) None t.

Class Sqlite := {
  random_rowid : gmap Z Row → option Z
}.

Definition next_rowid `{Sqlite} (t : gmap Z Row) : option Z :=
  match max_rowid t with
  | None => Some 1
  | Some m =>
      if decide (m < INT64_MAX) then Some (m + 1)
      else match random_rowid t with
           | Some k =>
               if decide (1 ≤ k ≤ INT64_MAX ∧ t !! k = None)
               then Some k else None
           | None => None
           end
  end.

(** [models.Item(name=..., description=..., price=..., quantity=...)]: a
    transient object, not yet known to the session. *)
Definition new_Item (n d : string) (p q : Z) : M nat :=
  λ w, (inr (length (heap w)),
        with_heap (heap w ++ [mkItem None n d p q]) w).

Definition deref (r : nat) : M Item :=
  λ w, match heap w !! r with
       | Some it => (inr it, w)
       | None => (inl OtherException, w)
       end.

Definition setattr (f : Item → Item) (r : nat) : M unit :=
  λ w, match heap w !! r with
       | Some it => (inr tt, with_heap (<[r := f it]> (heap w)) w)
       | None => (inl OtherException, w)
       end.

(** The object of the identity map that carries primary key [k], if any. *)
Definition find_loaded (w : World) (k : Z) : option nat :=
  head (filter (λ r, (heap w !! r) ≫= id = Some k) (identity_map w)).

(** [db.query(models.Item).filter(models.Item.id == k).first()].  The
    session does not flush before a query ([autoflush=False]).  The key is
    bound as a parameter of the statement: outside the 64-bit range this
    raises OverflowError. *)
Definition query_first (k : Z) : M (option nat) :=
  db_call ;;
  λ w, if decide (in_int64 k)
       then match table w !! k with
            | None => (inr None, w)
            | Some row =>
                match find_loaded w k with
                | Some r => (inr (Some r), w)
                | None =>
                    let r := length (heap w) in
                    (inr (Some r),
                     with_identity_map (identity_map w ++ [r])
                       (with_heap (heap w ++ [load k row]) w))
                end
            end
       else (inl OtherException, w).

(** [db.add(obj)] and [db.delete(obj)] only mark the object. *)
Definition add (r : nat) : M unit := modify (λ w, with_new (new w ++ [r]) w).
Definition delete_ (r : nat) : M unit :=
  modify (λ w, with_deleted (deleted w ++ [r]) w).

(** The flush of one unit of work, applied to the table: the attribute
    values of every tracked object that is not marked for deletion are
    written to its row, every pending object is inserted under a fresh key,
    which the object receives, and the rows of the deleted objects are
    removed.  A statement whose integer parameters cannot be bound raises
    OverflowError, an insert for which the engine finds no key raises an
    SQLAlchemyError; either ends the flush. *)
Definition flush_update (h : list Item) (del : list nat)
    (acc : exn + gmap Z Row) (r : nat) : exn + gmap Z Row :=
  match acc with
  | inl e => inl e
  | inr t =>
      if decide (r ∈ del) then inr t
      else match h !! r with
           | Some it =>
               match id it with
               | Some k =>
                   if decide (storable it) then inr (<[k := row_of it]> t)
                   else inl OtherException
               | None => inr t
               end
           | None => inr t
           end
  end.

Definition flush_insert `{Sqlite} (acc : exn + gmap Z Row * list Item)
    (r : nat) : exn + gmap Z Row * list Item :=
  match acc with
  | inl e => inl e
  | inr (t, h) =>
      match h !! r with
      | Some it =>
          if decide (storable it)
          then match next_rowid t with
               | Some k =>
                   inr (<[k := row_of it]> t, <[r := set_id (Some k) it]> h)
               | None => inl SQLAlchemyError
               end
          else inl OtherException
      | None => inr (t, h)
      end
  end.

Definition flush_delete (h : list Item) (t : gmap Z Row) (r : nat)
    : gmap Z Row :=
  match h !! r with
  | Some it =>
      match id it with
      | Some k => delete k t
      | None => t
      end
  | None => t
  end.

(** When the flush raises, the transaction has had no effect on the table
    and the session keeps its pending state until [rollback] is called. *)
Definition flush `{Sqlite} : M unit :=
  λ w,
    match foldl (flush_update (heap w) (deleted w)) (inr (table w))
            (identity_map w) with
    | inl e => (inl e, w)
    | inr t1 =>
        match foldl flush_insert (inr (t1, heap w)) (new w) with
        | inl e => (inl e, w)
        | inr (t2, h2) =>
            (inr tt,
             mkWorld (foldl (flush_delete h2) t2 (deleted w)) (oracle w) h2
               [] [] (filter (λ r, r ∉ deleted w) (identity_map w ++ new w)))
        end
    end.

(** [db.commit()]: flush and make durable, in one transaction.  When the
    store raises, the transaction has had no effect on the table and the
    session keeps its pending state until [rollback] is called. *)
Definition commit `{Sqlite} : M unit :=
  db_call ;; flush.

(** [db.refresh(obj)] reloads the attributes of a persistent object from
    its row, which it selects by the key of the object, bound as a
    parameter; it raises when the object has no row. *)
Definition refresh (r : nat) : M unit :=
  db_call ;;
  λ w, match heap w !! r with
       | Some it =>
           match id it with
           | Some k =>
               if decide (in_int64 k)
               then match table w !! k with
                    | Some row =>
                        (inr tt, with_heap (<[r := load k row]> (heap w)) w)
                    | None => (inl SQLAlchemyError, w)
                    end
               else (inl OtherException, w)
           | None => (inl SQLAlchemyError, w)
           end
       | None => (inl OtherException, w)
       end.

(** [db.rollback()] discards the pending inserts and deletes and expires
    the tracked objects: their attributes are those of their rows again.  It
    is taken not to raise. *)
Definition expire (t : gmap Z Row) (h : list Item) (r : nat) : list Item :=
  match h !! r with
  | Some it =>
      match id it with
      | Some k =>
          match t !! k with
          | Some row => <[r := load k row]> h
          | None => h
          end
      | None => h
      end
  | None => h
  end.

Definition rollback : M unit :=
  modify (λ w,
    mkWorld (table w) (oracle w)
      (foldl (expire (table w)) (heap w) (identity_map w)) [] []
      (identity_map w)).

(** [SessionLocal()] opens a session on the store; [get_db] hands it to the
    handler and closes it afterwards, whatever the handler did: what remains
    is the durable table. *)
Definition SessionLocal (t : gmap Z Row) (o : list (option fault)) : World :=
  mkWorld t o [] [] [] [].

Definition get_db {A} (t : gmap Z Row) (o : list (option fault))
    (handler : M A) : (exn + A) * gmap Z Row :=
  let '(r, w) := handler (SessionLocal t o) in (r, table w).

(** ** main.py *)

(** The validated shape of a payload. *)
Record ItemBase := mkItemBase {
  ib_name : string;
  ib_description : string;
  ib_price : Z;
  ib_quantity : Z
}.

(** What pydantic does with a value that is not already of the annotated
    type (numeric strings, booleans, floats, ...) depends on its version and
    mode; the handlers are verified for every such conversion table. *)
Class Pydantic := {
  lax_str : pyval → option string;
  lax_int : pyval → option Z
}.

(** The body of a successful response. *)
Inductive body :=
| ItemBody (status : string) (item : Item)          (* {"status", "item"} *)
| MessageBody (status : string) (message : string). (* {"status", "message"} *)

(** What a handler is called with: the Content-Type header as
    [request.headers.get] returns it, the result of [request.json()] ([None]
    when the body does not parse), the body parameter [item] and the four
    [Form(None)] parameters. *)
Record Request := mkRequest {
  content_type : option string;
  json : option pyval;
  item : option ItemBase;
  form_name : option string;
  form_description : option string;
  form_price : option Z;
  form_quantity : option Z
}.

Section handlers.
Context `{Pydantic} `{Sqlite}.

(** Field validation of [name: str] and [price: int]: a value of the
    annotated type is taken as it is, [None] is refused. *)
Definition validate_str (v : pyval) : option string :=
  match v with
  | PStr s => Some s
  | PNone => None
  | _ => lax_str v
  end.

Definition validate_int (v : pyval) : option Z :=
  match v with
  | PInt z => Some z
  | PNone => None
  | _ => lax_int v
  end.

(** The constructor of [ItemBase] on keyword arguments [kw]: every field
    is required; other keys are ignored. *)
Definition validate_fields (kw : gmap string pyval) : option ItemBase :=
  match kw !! "name" ≫= validate_str,
        kw !! "description" ≫= validate_str,
        kw !! "price" ≫= validate_int,
        kw !! "quantity" ≫= validate_int with
  | Some n, Some d, Some p, Some q => Some (mkItemBase n d p q)
  | _, _, _, _ => None
  end.

Definition ItemBase_init (kw : gmap string pyval) : M ItemBase :=
  match validate_fields kw with
  | Some data => ret data
  | None => raise ValidationError
  end.

(** [json_data] unpacked into keyword arguments: it must be a mapping. *)
Definition ItemBase_of_json (json_data : pyval) : M ItemBase :=
  match json_data with
  | PDict kw => ItemBase_init kw
  | _ => raise OtherException
  end.

Definition of_str (o : option string) : pyval := from_option PStr PNone o.
Definition of_int (o : option Z) : pyval := from_option PInt PNone o.

(** [ItemBase(name=name, description=description, price=price,
    quantity=quantity)] *)
Definition form_kwargs (n d : option string) (p q : option Z)
    : gmap string pyval :=
  <["name" := of_str n]> (<["description" := of_str d]>
    (<["price" := of_int p]> (<["quantity" := of_int q]> ∅))).

Definition ItemBase_of_form (n d : option string) (p q : option Z)
    : M ItemBase :=
  ItemBase_init (form_kwargs n d p q).

Definition request_json (req : Request) : M pyval :=
  match json req with
  | Some v => ret v
  | None => raise OtherException
  end.

(** The three [except] clauses that close every mutating handler. *)
Definition except_clauses {A} (e : exn) : option (M A) :=
  match e with
  | SQLAlchemyError =>
      Some (rollback ;;
            raise (HTTPException status.HTTP_503_SERVICE_UNAVAILABLE
                     "Database error occurred"))
  | HTTPException c d => Some (raise (HTTPException c d))
  | _ =>
      Some (raise (HTTPException status.HTTP_500_INTERNAL_SERVER_ERROR
                     "Internal server error"))
  end.

Definition on_ValidationError {A} (detail : string) (e : exn)
    : option (M A) :=
  match e with
  | ValidationError =>
      Some (raise (HTTPException status.HTTP_422_UNPROCESSABLE_ENTITY detail))
  | _ => None
  end.

(** The two domain checks shared by create and update. *)
Definition check_non_negative (data : ItemBase) : M unit :=
  (if decide (ib_price data < 0)
   then raise (HTTPException status.HTTP_400_BAD_REQUEST
                 "Price cannot be negative")
   else ret tt) ;;
  (if decide (ib_quantity data < 0)
   then raise (HTTPException status.HTTP_400_BAD_REQUEST
                 "Quantity cannot be negative")
   else ret tt).

(** The two branches on the Content-Type header in [create_item]. *)
Definition json_branch (req : Request) : M ItemBase :=
  let* json_data := request_json req in
  try_except (ItemBase_of_json json_data)
    (on_ValidationError "Invalid JSON data format").

Definition form_branch (req : Request) : M ItemBase :=
  try_except
    (ItemBase_of_form (form_name req) (form_description req)
       (form_price req) (form_quantity req))
    (on_ValidationError "Invalid form data").

Definition create_item (req : Request) : M body :=
  try_except
    (let* data :=
       (if decide (content_type req = Some "application/json")
        then json_branch req
        else form_branch req) in
     check_non_negative data ;;
     let* db_item :=
       new_Item (ib_name data) (ib_description data)
         (ib_price data) (ib_quantity data) in
     add db_item ;;
     commit ;;
     refresh db_item ;;
     let* it := deref db_item in
     ret (ItemBody "success" it))
    except_clauses.

Definition not_found (item_id : Z) : exn :=
  HTTPException status.HTTP_404_NOT_FOUND
    ("Item with id " +:+ pretty item_id +:+ " not found").

Definition update_item (item_id : Z) (req : Request) : M body :=
  try_except
    (let* found := query_first item_id in
     match found with
     | None => raise (not_found item_id)
     | Some db_item =>
         let* data :=
           try_except
             (match item req with
              | Some i => ret i
              | None =>
                  ItemBase_of_form (form_name req) (form_description req)
                    (form_price req) (form_quantity req)
              end)
             (on_ValidationError "Invalid data format") in
         check_non_negative data ;;
         setattr (set_name (ib_name data)) db_item ;;
         setattr (set_description (ib_description data)) db_item ;;
         setattr (set_price (ib_price data)) db_item ;;
         setattr (set_quantity (ib_quantity data)) db_item ;;
         commit ;;
         refresh db_item ;;
         let* it := deref db_item in
         ret (ItemBody "success" it)
     end)
    except_clauses.

Definition delete_item (item_id : Z) : M body :=
  try_except
    (let* found := query_first item_id in
     match found with
     | None => raise (not_found item_id)
     | Some it =>
         delete_ it ;;
         commit ;;
         ret (MessageBody "success"
                ("Item " +:+ pretty item_id +:+ " deleted successfully"))
     end)
    except_clauses.

(** ** The endpoints

    One request is one session: the handler runs between [SessionLocal()]
    and [close()].  An [HTTPException] becomes the response of its status
    code; a handler that returns answers 200. *)
Inductive Response :=
| Ok (b : body)
| Error (status_code : Z) (detail : string).

Definition respond (r : exn + body) : Response :=
  match r with
  | inr b => Ok b
  | inl (HTTPException c d) => Error c d
  | inl _ => Error status.HTTP_500_INTERNAL_SERVER_ERROR "Internal Server Error"
  end.

Definition endpoint (t : gmap Z Row) (o : list (option fault))
    (handler : M body) : Response * gmap Z Row :=
  let '(r, t') := get_db t o handler in (respond r, t').

Definition POST_items t o (req : Request) := endpoint t o (create_item req).
Definition PUT_items t o (item_id : Z) (req : Request) :=
  endpoint t o (update_item item_id req).
Definition DELETE_items t o (item_id : Z) := endpoint t o (delete_item item_id).

End handlers.

(** ** Vocabulary of the properties *)

(** The store raises at none of the calls. *)
Definition no_faults (o : list (option fault)) : Prop := Forall (λ x, x = None) o.

(** The fault the store raised during a run that started with oracle [o] and
    ended in [w], if any: a handler makes no further call after a fault, so
    it is the last outcome that was consumed. *)
Definition raised (o : list (option fault)) (w : World) : option fault :=
  mjoin (last (take (length o - length (oracle w)) o)).

(** The domain invariant of the table. *)
Definition non_negative (t : gmap Z Row) : Prop :=
  map_Forall (λ _ r, 0 ≤ row_price r ∧ 0 ≤ row_quantity r) t.

(** Primary keys handed out by the store start at 1. *)
Definition rowids_positive (t : gmap Z Row) : Prop :=
  map_Forall (λ k (_ : Row), 1 ≤ k) t.

(** The session holds no change that the table does not have: nothing is
    pending, and every tracked object shows the attributes of its row. *)
Definition clean (w : World) : Prop :=
  new w = [] ∧ deleted w = [] ∧
  ∀ r, r ∈ identity_map w →
    ∃ k row, heap w !! r = Some (load k row) ∧ table w !! k = Some row.

Definition row_of_data (data : ItemBase) : Row :=
  mkRow (ib_name data) (ib_description data) (ib_price data) (ib_quantity data).

Definition item_of_data (k : Z) (data : ItemBase) : Item :=
  mkItem (Some k) (ib_name data) (ib_description data)
    (ib_price data) (ib_quantity data).

(** The price and the quantity of a validated payload fit the columns. *)
Definition storable_data (data : ItemBase) : Prop :=
  in_int64 (ib_price data) ∧ in_int64 (ib_quantity data).

#[global] Instance storable_data_dec data : Decision (storable_data data).
Proof. unfold storable_data. apply _. Defined.

(** The field set a request to [create_item] carries: the JSON object under
    the JSON Content-Type, the form parameters otherwise.  A JSON body that
    does not parse, or is no object, carries none. *)
Definition payload (req : Request) : option (gmap string pyval) :=
  if decide (content_type req = Some "application/json")
  then match json req with
       | Some (PDict kw) => Some kw
       | _ => None
       end
  else Some (form_kwargs (form_name req) (form_description req)
               (form_price req) (form_quantity req)).

(** The repository's [get]: the lookup [update_item] and [delete_item]
    start with, in a session of its own. *)
Definition get_item (k : Z) : M (option Item) :=
  let* found := query_first k in
  match found with
  | Some r => let* it := deref r in ret (Some it)
  | None => ret None
  end.

Definition get (t : gmap Z Row) (o : list (option fault)) (k : Z)
    : (exn + option Item) * gmap Z Row :=
  get_db t o (get_item k).


Definition is_json_request (req : Request) (kw : gmap string pyval) : Prop :=
  content_type req = Some "application/json" ∧ json req = Some (PDict kw).


(** A required field is missing from the payload, or carries a value that
    the validator of its annotated type refuses. *)
Definition missing_or_mistyped {A} (validate : pyval → option A)
    (kw : gmap string pyval) (key : string) : Prop :=
  match kw !! key with
  | None => True
  | Some v => validate v = None
  end.

Definition ill_typed `{Pydantic} (kw : gmap string pyval) : Prop :=
  missing_or_mistyped validate_str kw "name" ∨
  missing_or_mistyped validate_str kw "description" ∨
  missing_or_mistyped validate_int kw "price" ∨
  missing_or_mistyped validate_int kw "quantity".

(** Requests of the test scenarios. *)
Definition json_request (kw : gmap string pyval) : Request :=
  mkRequest (Some "application/json") (Some (PDict kw)) None None None None None.

Definition form_request (n d : option string) (p q : option Z) : Request :=
  mkRequest (Some "application/x-www-form-urlencoded") None None n d p q.

Definition widget : gmap string pyval :=
  <["name" := PStr "Widget"]> (<["description" := PStr "A widget"]>
    (<["price" := PInt 10]> (<["quantity" := PInt 5]> ∅))).

Definition bad : gmap string pyval :=
  <["name" := PStr "Bad"]> (<["description" := PStr "x"]>
    (<["price" := PInt (-1)]> (<["quantity" := PInt 5]> ∅))).

Definition nameless : gmap string pyval :=
  <["description" := PStr "x"]>
    (<["price" := PInt (-1)]> (<["quantity" := PInt 5]> ∅)).

Definition widget_row : Row := mkRow "Widget" "A widget" 10 5.


(** An engine whose random search finds no key. *)
Definition no_candidate : Sqlite := {| random_rowid := λ _, None |}.

(** A conversion table that refuses every value of another type. *)
Definition strict : Pydantic := {| lax_str := λ _, None; lax_int := λ _, None |}.

(** What the handlers compute from a request before they touch the session.
    [decode] is the outcome of the branch on Content-Type in [create_item],
    [decode_update] that of the inner [try] of [update_item]. *)
Definition unprocessable (req : Request) : exn :=
  HTTPException status.HTTP_422_UNPROCESSABLE_ENTITY
    (if decide (content_type req = Some "application/json")
     then "Invalid JSON data format" else "Invalid form data").

Definition decode `{Pydantic} (req : Request) : exn + ItemBase :=
  match payload req with
  | None => inl OtherException
  | Some kw =>
      match validate_fields kw with
      | Some data => inr data
      | None => inl (unprocessable req)
      end
  end.

Definition decode_update `{Pydantic} (req : Request) : exn + ItemBase :=
  match item req with
  | Some i => inr i
  | None =>
      match validate_fields
              (form_kwargs (form_name req) (form_description req)
                 (form_price req) (form_quantity req)) with
      | Some data => inr data
      | None =>
          inl (HTTPException status.HTTP_422_UNPROCESSABLE_ENTITY
                 "Invalid data format")
      end
  end.

Definition negative_value (data : ItemBase) : exn :=
  HTTPException status.HTTP_400_BAD_REQUEST
    (if decide (ib_price data < 0) then "Price cannot be negative"
     else "Quantity cannot be negative").

(** The exception a handler raises for a fault of the store. *)
Definition fault_response (f : fault) : exn :=
  match f with
  | DBError =>
      HTTPException status.HTTP_503_SERVICE_UNAVAILABLE "Database error occurred"
  | OtherError =>
      HTTPException status.HTTP_500_INTERNAL_SERVER_ERROR "Internal server error"
  end.

Definition deleted_message (item_id : Z) : body :=
  MessageBody "success" ("Item " +:+ pretty item_id +:+ " deleted successfully").

(** The three mutating operations behind one dispatch, as the routes of
    [app] are. *)
Inductive operation :=
| Create (req : Request)                 (* POST /items/ *)
| Update (item_id : Z) (req : Request)   (* PUT /items/{item_id} *)
| Delete (item_id : Z).                  (* DELETE /items/{item_id} *)

Definition handler `{Pydantic} `{Sqlite} (op : operation) : M body :=
  match op with
  | Create req => create_item req
  | Update item_id req => update_item item_id req
  | Delete item_id => delete_item item_id
  end.

Definition app `{Pydantic} `{Sqlite} (t : gmap Z Row)
    (o : list (option fault))
    (op : operation) : Response * gmap Z Row :=
  endpoint t o (handler op).

(** The tables that sequences of operations lead to from [t0], whatever the
    requests and whatever the store does. *)
Inductive reachable_from `{Pydantic} `{Sqlite} (t0 : gmap Z Row)
    : gmap Z Row → Prop :=
| reachable_refl : reachable_from t0 t0
| reachable_step t o op :
    reachable_from t0 t → reachable_from t0 (app t o op).2.

(** The key an operation names in its path. *)
Definition target (op : operation) : option Z :=
  match op with
  | Create _ => None
  | Update item_id _ => Some item_id
  | Delete item_id => Some item_id
  end.

(** [t'] is [t] with the whole change of [op] in it: the new row with all
    four fields under its assigned key, the four fields of the named row
    replaced, or the named row removed. *)
Definition committed `{Pydantic} `{Sqlite} (op : operation)
    (t t' : gmap Z Row) : Prop :=
  match op with
  | Create req =>
      ∃ data k, decode req = inr data ∧
                0 ≤ ib_price data ∧ 0 ≤ ib_quantity data ∧
                next_rowid t = Some k ∧
                t' = <[k := row_of_data data]> t
  | Update item_id req =>
      ∃ data, is_Some (t !! item_id) ∧ decode_update req = inr data ∧
              0 ≤ ib_price data ∧ 0 ≤ ib_quantity data ∧
              t' = <[item_id := row_of_data data]> t
  | Delete item_id => is_Some (t !! item_id) ∧ t' = delete item_id t
  end.

(** The payload of an update carries [data]: as the body parameter, or as
    the four form parameters. *)
Definition update_payload (req : Request) (data : ItemBase) : Prop :=
  item req = Some data ∨
  (item req = None ∧
   form_name req = Some (ib_name data) ∧
   form_description req = Some (ib_description data) ∧
   form_price req = Some (ib_price data) ∧
   form_quantity req = Some (ib_quantity data)).

(** ** The home page

    [db.query(models.Item).all()] loads every row, by ascending key as the
    store returns them; an object the session already tracks under a key is
    handed out again. *)
Definition key_le (a b : Z * Row) : Prop := a.1 ≤ b.1.

#[global] Instance key_le_dec a b : Decision (key_le a b).
Proof. unfold key_le. apply _. Defined.

#[global] Instance key_le_trans : Transitive key_le.
Proof. unfold key_le. intros a b c ??. lia. Qed.

#[global] Instance key_le_total : Total key_le.
Proof. unfold key_le. intros a b. lia. Qed.

Definition rows_by_key (t : gmap Z Row) : list (Z * Row) :=
  merge_sort key_le (map_to_list t).

Definition load_row (acc : list nat * World) (kr : Z * Row)
    : list nat * World :=
  let '(rs, w) := acc in
  match find_loaded w kr.1 with
  | Some r => (rs ++ [r], w)
  | None =>
      let r := length (heap w) in
      (rs ++ [r],
       with_identity_map (identity_map w ++ [r])
         (with_heap (heap w ++ [load kr.1 kr.2]) w))
  end.

Definition query_all : M (list nat) :=
  db_call ;;
  λ w, let '(rs, w') := foldl load_row ([], w) (rows_by_key (table w)) in
       (inr rs, w').

(** The template reads the attributes of every object it is given. *)
Fixpoint deref_all (rs : list nat) : M (list Item) :=
  match rs with
  | [] => ret []
  | r :: rs' =>
      let* it := deref r in
      let* its := deref_all rs' in
      ret (it :: its)
  end.

(** [templates.TemplateResponse(name, {"request": request, "items": items})]
    renders when it is built; [None] stands for a rendering that raises. *)
Class Templates := {
  render : string → Request → list Item → option string
}.

Definition TemplateResponse `{Templates} (name : string) (request : Request)
    (items : list Item) : M string :=
  match render name request items with
  | Some html => ret html
  | None => raise OtherException
  end.

(** The two [except] clauses of [home]: no rollback, and no clause that lets
    an [HTTPException] through. *)
Definition home_except_clauses {A} (e : exn) : option (M A) :=
  match e with
  | SQLAlchemyError =>
      Some (raise (HTTPException status.HTTP_503_SERVICE_UNAVAILABLE
                     "Database service unavailable"))
  | _ =>
      Some (raise (HTTPException status.HTTP_500_INTERNAL_SERVER_ERROR
                     "Internal server error"))
  end.

Definition home `{Templates} (request : Request) : M string :=
  try_except
    (let* found := query_all in
     let* items := deref_all found in
     TemplateResponse "index.html" request items)
    home_except_clauses.

Inductive PageResponse :=
| Page (html : string)
| PageError (status_code : Z) (detail : string).

Definition respond_page (r : exn + string) : PageResponse :=
  match r with
  | inr html => Page html
  | inl (HTTPException c d) => PageError c d
  | inl _ =>
      PageError status.HTTP_500_INTERNAL_SERVER_ERROR "Internal Server Error"
  end.

Definition GET_root `{Templates} (t : gmap Z Row) (o : list (option fault))
    (request : Request) : PageResponse * gmap Z Row :=
  let '(r, t') := get_db t o (home request) in (respond_page r, t').

(** The rows of a table as the objects a fresh session loads. *)
Definition load_pair (kr : Z * Row) : Item := load kr.1 kr.2.

Definition all_items (t : gmap Z Row) : list Item :=
  load_pair <$> rows_by_key t.

(** ** Outcomes of the mutating handlers

    The exception with which an operation is refused before it writes, if it
    is: what the lookup, the decoding, the two domain checks, the binding of
    the integers and the search for a key decide. *)
Definition domain_refusal (data : ItemBase) : option exn :=
  if decide (ib_price data < 0 ∨ ib_quantity data < 0)
  then Some (negative_value data)
  else None.

Definition storage_refusal (data : ItemBase) : option exn :=
  match domain_refusal data with
  | Some e => Some e
  | None =>
      if decide (storable_data data) then None
      else Some (fault_response OtherError)
  end.

Definition refused `{Pydantic} `{Sqlite} (op : operation) (t : gmap Z Row)
    : option exn :=
  match op with
  | Create req =>
      match decode req with
      | inl (HTTPException c d) => Some (HTTPException c d)
      | inl _ => Some (fault_response OtherError)
      | inr data =>
          match storage_refusal data with
          | Some e => Some e
          | None =>
              match next_rowid t with
              | Some _ => None
              | None => Some (fault_response DBError)
              end
          end
      end
  | Update item_id req =>
      if decide (in_int64 item_id)
      then match t !! item_id with
           | None => Some (not_found item_id)
           | Some _ =>
               match decode_update req with
               | inl e => Some e
               | inr data => storage_refusal data
               end
           end
      else Some (fault_response OtherError)
  | Delete item_id =>
      if decide (in_int64 item_id)
      then match t !! item_id with
           | None => Some (not_found item_id)
           | Some _ => None
           end
      else Some (fault_response OtherError)
  end.

(** [op] on [t] is answered with [b] and leaves [t']. *)
Definition succeeded `{Pydantic} `{Sqlite} (op : operation) (t : gmap Z Row)
    (b : body) (t' : gmap Z Row) : Prop :=
  match op with
  | Create req =>
      ∃ data k, decode req = inr data ∧ next_rowid t = Some k ∧
                in_int64 k ∧
                b = ItemBody "success" (item_of_data k data) ∧
                t' = <[k := row_of_data data]> t
  | Update item_id req =>
      ∃ data, decode_update req = inr data ∧ in_int64 item_id ∧
              b = ItemBody "success" (item_of_data item_id data) ∧
              t' = <[item_id := row_of_data data]> t
  | Delete item_id =>
      in_int64 item_id ∧ b = deleted_message item_id ∧
      t' = delete item_id t
  end.

(** The status codes the handlers raise. *)
Definition known_status : list Z :=
  [status.HTTP_400_BAD_REQUEST; status.HTTP_404_NOT_FOUND;
   status.HTTP_422_UNPROCESSABLE_ENTITY;
   status.HTTP_500_INTERNAL_SERVER_ERROR;
   status.HTTP_503_SERVICE_UNAVAILABLE].

(** A template for the scenarios: it prints the names. *)
Definition names_template : Templates :=
  {| render := λ _ _ items,
       Some (foldr (λ it acc, name it +:+ ";" +:+ acc) "" items) |}.

Ltac norm_world :=
  unfold with_oracle, with_heap, with_new, with_deleted,
    with_identity_map; cbn.

(** ** Key allocation *)

Lemma max_rowid_spec (t : gmap Z Row) :
  match max_rowid t with
  | None => t = ∅
  | Some m => is_Some (t !! m) ∧ ∀ k, is_Some (t !! k) → k ≤ m
  end.
Proof.
  unfold max_rowid.
  apply (map_fold_weak_ind (λ acc (t : gmap Z Row),
    match acc with
    | None => t = ∅
    | Some m => is_Some (t !! m) ∧ ∀ k, is_Some (t !! k) → k ≤ m
    end)); [done|].
  intros k r m acc Hk IH. destruct acc as [mx|]; simpl.
  - destruct IH as [Hmx Hle]. split.
    + destruct (Z.max_spec k mx) as [[_ ->]|[_ ->]].
      * rewrite lookup_insert_ne; [done|]. intros ->. destruct Hmx. congruence.
      * by rewrite lookup_insert_eq.
    + intros k' Hk'. destruct (decide (k = k')) as [->|Hne]; [lia|].
      rewrite lookup_insert_ne in Hk' by done. specialize (Hle _ Hk'). lia.
  - subst m. split; [by rewrite lookup_insert_eq|].
    intros k' Hk'. destruct (decide (k = k')) as [->|Hne]; [lia|].
    rewrite lookup_insert_ne, lookup_empty in Hk' by done. by destruct Hk'.
Qed.

Section allocation.
Context `{Sqlite}.

Lemma next_rowid_fresh (t : gmap Z Row) k :
  next_rowid t = Some k → t !! k = None.
Proof.
  unfold next_rowid. pose proof (max_rowid_spec t) as Hm.
  destruct (max_rowid t) as [m|]; [|by intros _; subst].
  destruct Hm as [_ Hle]. case_decide.
  - intros [= <-]. destruct (t !! (m + 1)) eqn:E; [|done].
    specialize (Hle (m + 1) (mk_is_Some _ _ E)). lia.
  - destruct (random_rowid t) as [k'|]; [|done].
    case_decide as Hc; [|done]. intros [= <-]. tauto.
Qed.


Lemma next_rowid_positive (t : gmap Z Row) k :
  rowids_positive t → next_rowid t = Some k → 1 ≤ k.
Proof.
  intros Ht. unfold next_rowid. pose proof (max_rowid_spec t) as Hm.
  destruct (max_rowid t) as [m|]; [|by intros [= <-]].
  destruct Hm as [[r Hr] _]. specialize (Ht m r Hr). simpl in Ht.
  case_decide; [intros [= <-]; lia|].
  destruct (random_rowid t) as [k'|]; [|done].
  case_decide; [|done]. intros [= <-]. lia.
Qed.


(** While every key is below the largest integer, a key is found. *)
Lemma next_rowid_is_Some (t : gmap Z Row) :
  map_Forall (λ k (_ : Row), k < INT64_MAX) t → is_Some (next_rowid t).
Proof.
  intros Ht. unfold next_rowid. pose proof (max_rowid_spec t) as Hm.
  destruct (max_rowid t) as [m|]; [|by eexists].
  destruct Hm as [[r Hr] _]. specialize (Ht m r Hr). simpl in Ht.
  rewrite decide_True by done. by eexists.
Qed.

Lemma rowids_positive_insert (t : gmap Z Row) k (r : Row) :
  rowids_positive t → next_rowid t = Some k →
  rowids_positive (<[k := r]> t).
Proof.
  intros Ht Hk. apply map_Forall_insert_2; [|done].
  by eapply next_rowid_positive.
Qed.

End allocation.

(** ** The oracle *)

Lemma no_faults_head o : no_faults o → mjoin (head o) = None.
Proof. by destruct 1 as [|? ? ->]. Qed.

Lemma no_faults_tail o : no_faults o → no_faults (tail o).
Proof. destruct 1; [constructor|done]. Qed.

Lemma db_call_ok t o h n d im :
  mjoin (head o) = None →
  db_call (mkWorld t o h n d im) = (inr tt, mkWorld t (tail o) h n d im).
Proof. by destruct o as [|[f|] o]. Qed.

Lemma db_call_fault t o h n d im f :
  mjoin (head o) = Some f →
  db_call (mkWorld t o h n d im) =
    (inl (match f with
          | DBError => SQLAlchemyError
          | OtherError => OtherException
          end), mkWorld t (tail o) h n d im).
Proof. destruct o as [|[f'|] o]; intros [=]; subst. by destruct f. Qed.

(** ** The session operations on the worlds the handlers build *)

Section session.
Context `{Sqlite}.

Lemma flush_new t o it k :
  storable it → next_rowid t = Some k →
  flush (mkWorld t o [it] [0%nat] [] []) =
    (inr tt,
     mkWorld (<[k := row_of it]> t) o [set_id (Some k) it] [] [] [0%nat]).
Proof.
  intros Hit Hk. unfold flush. cbn.
  by rewrite decide_True, Hk by done.
Qed.

Lemma flush_new_overflow t o it :
  ¬ storable it →
  flush (mkWorld t o [it] [0%nat] [] []) =
    (inl OtherException, mkWorld t o [it] [0%nat] [] []).
Proof. intros Hit. unfold flush. cbn. by rewrite decide_False. Qed.

Lemma flush_new_full t o it :
  storable it → next_rowid t = None →
  flush (mkWorld t o [it] [0%nat] [] []) =
    (inl SQLAlchemyError, mkWorld t o [it] [0%nat] [] []).
Proof.
  intros Hit Hk. unfold flush. cbn. by rewrite decide_True, Hk by done.
Qed.

Lemma flush_dirty t o k n d p q :
  in_int64 p → in_int64 q →
  flush (mkWorld t o [mkItem (Some k) n d p q] [] [] [0%nat]) =
    (inr tt,
     mkWorld (<[k := mkRow n d p q]> t) o [mkItem (Some k) n d p q] [] []
       [0%nat]).
Proof.
  intros Hp Hq. unfold flush. cbn.
  by rewrite (decide_True (P := storable _)) by done.
Qed.

Lemma flush_dirty_overflow t o k n d p q :
  ¬ (in_int64 p ∧ in_int64 q) →
  flush (mkWorld t o [mkItem (Some k) n d p q] [] [] [0%nat]) =
    (inl OtherException,
     mkWorld t o [mkItem (Some k) n d p q] [] [] [0%nat]).
Proof.
  intros Hpq. unfold flush. cbn.
  by rewrite (decide_False (P := storable _)) by done.
Qed.

Lemma flush_deleted t o k row :
  flush (mkWorld t o [load k row] [] [0%nat] [0%nat]) =
    (inr tt, mkWorld (delete k t) o [load k row] [] [] []).
Proof. reflexivity. Qed.

End session.

Lemma query_first_fault t o k f :
  mjoin (head o) = Some f →
  query_first k (SessionLocal t o) =
    (inl (match f with
          | DBError => SQLAlchemyError
          | OtherError => OtherException
          end), SessionLocal t (tail o)).
Proof.
  intros Hf. unfold query_first, bind, SessionLocal.
  by rewrite (db_call_fault _ _ _ _ _ _ f).
Qed.

Lemma query_first_overflow t o k :
  mjoin (head o) = None → ¬ in_int64 k →
  query_first k (SessionLocal t o) =
    (inl OtherException, SessionLocal t (tail o)).
Proof.
  intros Hf Hk. unfold query_first, bind, SessionLocal.
  rewrite db_call_ok by done. by rewrite decide_False.
Qed.

Lemma query_first_absent t o k :
  mjoin (head o) = None → in_int64 k → t !! k = None →
  query_first k (SessionLocal t o) = (inr None, SessionLocal t (tail o)).
Proof.
  intros Hf Hr Hk. unfold query_first, bind, SessionLocal.
  rewrite db_call_ok by done. rewrite decide_True by done. cbn.
  by rewrite Hk.
Qed.

Lemma query_first_present t o k row :
  mjoin (head o) = None → in_int64 k → t !! k = Some row →
  query_first k (SessionLocal t o) =
    (inr (Some 0%nat), mkWorld t (tail o) [load k row] [] [] [0%nat]).
Proof.
  intros Hf Hr Hk. unfold query_first, bind, SessionLocal.
  rewrite db_call_ok by done. rewrite decide_True by done. cbn.
  by rewrite Hk.
Qed.

Section runs.
Context `{Pydantic} `{Sqlite}.

Lemma decode_run req w :
  (if decide (content_type req = Some "application/json")
   then json_branch req else form_branch req) w = (decode req, w).
Proof.
  unfold decode, payload, unprocessable, json_branch, form_branch,
    request_json, ItemBase_of_json, ItemBase_of_form, ItemBase_init,
    try_except, bind.
  destruct (decide _) as [Hct|Hct].
  - destruct (json req) as [[]|]; cbn; try done.
    by destruct (validate_fields _).
  - cbn. by destruct (validate_fields _).
Qed.

Lemma decode_update_run req w :
  try_except
    (match item req with
     | Some i => ret i
     | None =>
         ItemBase_of_form (form_name req) (form_description req)
           (form_price req) (form_quantity req)
     end)
    (on_ValidationError "Invalid data format") w = (decode_update req, w).
Proof.
  unfold decode_update, ItemBase_of_form, ItemBase_init, try_except.
  destruct (item req); [done|]. by destruct (validate_fields _).
Qed.

Lemma check_non_negative_ok data w :
  0 ≤ ib_price data → 0 ≤ ib_quantity data →
  check_non_negative data w = (inr tt, w).
Proof.
  intros. unfold check_non_negative, bind.
  by rewrite !decide_False by lia.
Qed.

Lemma check_non_negative_fail data w :
  ib_price data < 0 ∨ ib_quantity data < 0 →
  check_non_negative data w = (inl (negative_value data), w).
Proof.
  intros Hneg. unfold check_non_negative, negative_value, bind.
  destruct (decide (ib_price data < 0)); [done|].
  by rewrite decide_True by lia.
Qed.

(** *** create_item *)

Lemma create_item_no_payload req w :
  payload req = None →
  create_item req w = (inl (fault_response OtherError), w).
Proof.
  intros Hp. unfold create_item, try_except, bind.
  rewrite decode_run. unfold decode. by rewrite Hp.
Qed.

Lemma create_item_unprocessable req kw w :
  payload req = Some kw → validate_fields kw = None →
  create_item req w = (inl (unprocessable req), w).
Proof.
  intros Hp Hv. unfold create_item, try_except, bind.
  rewrite decode_run. unfold decode. by rewrite Hp, Hv.
Qed.

Lemma create_item_negative req data w :
  decode req = inr data →
  ib_price data < 0 ∨ ib_quantity data < 0 →
  create_item req w = (inl (negative_value data), w).
Proof.
  intros Hd Hneg. unfold create_item, try_except, bind.
  by rewrite decode_run, Hd, check_non_negative_fail.
Qed.

(** What [create_item] does once the payload has passed both checks: the
    commit, which can fail on the oracle, on the binding of the integers
    and on the search for a key, and the refresh. *)
Lemma create_item_commit req data t o :
  decode req = inr data → 0 ≤ ib_price data → 0 ≤ ib_quantity data →
  create_item req (SessionLocal t o) =
    let transient := mkItem None (ib_name data) (ib_description data)
                       (ib_price data) (ib_quantity data) in
    match mjoin (head o) with
    | Some DBError =>
        (inl (fault_response DBError),
         mkWorld t (tail o) [transient] [] [] [])
    | Some OtherError =>
        (inl (fault_response OtherError),
         mkWorld t (tail o) [transient] [0%nat] [] [])
    | None =>
        if decide (storable_data data)
        then match next_rowid t with
             | None =>
                 (inl (fault_response DBError),
                  mkWorld t (tail o) [transient] [] [] [])
             | Some k =>
                 (match mjoin (head (tail o)) with
                  | Some f => inl (fault_response f)
                  | None =>
                      if decide (in_int64 k)
                      then inr (ItemBody "success" (item_of_data k data))
                      else inl (fault_response OtherError)
                  end,
                  mkWorld (<[k := row_of_data data]> t) (tail (tail o))
                    [item_of_data k data] [] [] [0%nat])
             end
        else (inl (fault_response OtherError),
              mkWorld t (tail o) [transient] [0%nat] [] [])
    end.
Proof.
  intros Hd Hp Hq. unfold create_item, try_except, bind.
  rewrite decode_run, Hd, check_non_negative_ok by done.
  unfold new_Item, add, modify, commit, bind, SessionLocal. norm_world.
  destruct (mjoin (head o)) as [f|] eqn:Hf.
  { rewrite (db_call_fault _ _ _ _ _ _ f) by done. by destruct f. }
  rewrite db_call_ok by done.
  destruct (decide (storable_data data)) as [Hst|Hst]; last first.
  { by rewrite flush_new_overflow by done. }
  destruct (next_rowid t) as [k|] eqn:Hk; last first.
  { by rewrite flush_new_full by done. }
  rewrite (flush_new _ _ _ k) by done.
  unfold refresh, bind.
  destruct (mjoin (head (tail o))) as [f|] eqn:Hf'.
  - rewrite (db_call_fault _ _ _ _ _ _ f) by done.
    destruct f; cbn; [|done].
    unfold rollback, modify, bind, expire. norm_world.
    by rewrite lookup_insert_eq.
  - rewrite db_call_ok by done. norm_world.
    destruct (decide (in_int64 k)); [|done]. by rewrite lookup_insert_eq.
Qed.


(** *** update_item *)

Lemma update_item_lookup_fault item_id req t o f :
  mjoin (head o) = Some f →
  update_item item_id req (SessionLocal t o) =
    (inl (fault_response f), SessionLocal t (tail o)).
Proof.
  intros Hf. unfold update_item, try_except, bind.
  rewrite (query_first_fault _ _ _ f) by done. by destruct f.
Qed.

Lemma update_item_overflow item_id req t o :
  mjoin (head o) = None → ¬ in_int64 item_id →
  update_item item_id req (SessionLocal t o) =
    (inl (fault_response OtherError), SessionLocal t (tail o)).
Proof.
  intros Hf Hk. unfold update_item, try_except, bind.
  by rewrite query_first_overflow.
Qed.

Lemma update_item_absent item_id req t o :
  mjoin (head o) = None → in_int64 item_id → t !! item_id = None →
  update_item item_id req (SessionLocal t o) =
    (inl (not_found item_id), SessionLocal t (tail o)).
Proof.
  intros Hf Hr Hk. unfold update_item, try_except, bind.
  by rewrite query_first_absent.
Qed.

Lemma update_item_invalid item_id req t o row c d :
  mjoin (head o) = None → in_int64 item_id → t !! item_id = Some row →
  decode_update req = inl (HTTPException c d) →
  update_item item_id req (SessionLocal t o) =
    (inl (HTTPException c d),
     mkWorld t (tail o) [load item_id row] [] [] [0%nat]).
Proof.
  intros Hf Hr Hk Hd. unfold update_item, try_except at 1, bind.
  rewrite (query_first_present _ _ _ row) by done.
  by rewrite decode_update_run, Hd.
Qed.

Lemma update_item_negative item_id req t o row data :
  mjoin (head o) = None → in_int64 item_id → t !! item_id = Some row →
  decode_update req = inr data →
  ib_price data < 0 ∨ ib_quantity data < 0 →
  update_item item_id req (SessionLocal t o) =
    (inl (negative_value data),
     mkWorld t (tail o) [load item_id row] [] [] [0%nat]).
Proof.
  intros Hf Hr Hk Hd Hneg. unfold update_item, try_except at 1, bind.
  rewrite (query_first_present _ _ _ row) by done.
  by rewrite decode_update_run, Hd, check_non_negative_fail.
Qed.

(** What [update_item] does once the row is found and the payload has
    passed both checks. *)
Lemma update_item_commit item_id req t o row data :
  mjoin (head o) = None → in_int64 item_id → t !! item_id = Some row →
  decode_update req = inr data →
  0 ≤ ib_price data → 0 ≤ ib_quantity data →
  update_item item_id req (SessionLocal t o) =
    match mjoin (head (tail o)) with
    | Some DBError =>
        (inl (fault_response DBError),
         mkWorld t (tail (tail o)) [load item_id row] [] [] [0%nat])
    | Some OtherError =>
        (inl (fault_response OtherError),
         mkWorld t (tail (tail o)) [item_of_data item_id data] [] []
           [0%nat])
    | None =>
        if decide (storable_data data)
        then (match mjoin (head (tail (tail o))) with
              | Some f => inl (fault_response f)
              | None => inr (ItemBody "success" (item_of_data item_id data))
              end,
              mkWorld (<[item_id := row_of_data data]> t)
                (tail (tail (tail o)))
                [item_of_data item_id data] [] [] [0%nat])
        else (inl (fault_response OtherError),
              mkWorld t (tail (tail o)) [item_of_data item_id data] [] []
                [0%nat])
    end.
Proof.
  intros Hf Hr Hk Hd Hp Hq. unfold update_item, try_except at 1, bind.
  rewrite (query_first_present _ _ _ row) by done.
  rewrite decode_update_run, Hd, check_non_negative_ok by done.
  unfold setattr, commit, modify, bind. norm_world.
  unfold set_name, set_description, set_price, set_quantity, load. cbn.
  destruct (mjoin (head (tail o))) as [f|] eqn:Hf1.
  { rewrite (db_call_fault _ _ _ _ _ _ f) by done.
    destruct f; cbn; [|done].
    unfold rollback, modify, bind, expire. norm_world. by rewrite Hk. }
  rewrite db_call_ok by done.
  destruct (decide (storable_data data)) as [[Hsp Hsq]|Hst]; last first.
  { by rewrite flush_dirty_overflow by done. }
  rewrite flush_dirty by done.
  unfold refresh, bind.
  destruct (mjoin (head (tail (tail o)))) as [f|] eqn:Hf2.
  - rewrite (db_call_fault _ _ _ _ _ _ f) by done.
    destruct f; cbn; [|done].
    unfold rollback, modify, bind, expire. norm_world.
    by rewrite lookup_insert_eq.
  - rewrite db_call_ok by done. norm_world.
    rewrite decide_True by done. by rewrite lookup_insert_eq.
Qed.

Lemma update_item_valid item_id req t o row data :
  mjoin (head o) = None → in_int64 item_id → t !! item_id = Some row →
  decode_update req = inr data →
  0 ≤ ib_price data → 0 ≤ ib_quantity data → storable_data data →
  update_item item_id req (SessionLocal t o) =
    match mjoin (head (tail o)) with
    | Some DBError =>
        (inl (fault_response DBError),
         mkWorld t (tail (tail o)) [load item_id row] [] [] [0%nat])
    | Some OtherError =>
        (inl (fault_response OtherError),
         mkWorld t (tail (tail o)) [item_of_data item_id data] [] []
           [0%nat])
    | None =>
        (match mjoin (head (tail (tail o))) with
         | Some f => inl (fault_response f)
         | None => inr (ItemBody "success" (item_of_data item_id data))
         end,
         mkWorld (<[item_id := row_of_data data]> t) (tail (tail (tail o)))
           [item_of_data item_id data] [] [] [0%nat])
    end.
Proof.
  intros Hf Hr Hk Hd Hp Hq Hst.
  rewrite (update_item_commit _ _ _ _ row data) by done.
  by rewrite (decide_True (P := storable_data _)) by done.
Qed.

(** *** delete_item *)

Lemma delete_item_lookup_fault item_id t o f :
  mjoin (head o) = Some f →
  delete_item item_id (SessionLocal t o) =
    (inl (fault_response f), SessionLocal t (tail o)).
Proof.
  intros Hf. unfold delete_item, try_except, bind.
  rewrite (query_first_fault _ _ _ f) by done. by destruct f.
Qed.

Lemma delete_item_overflow item_id t o :
  mjoin (head o) = None → ¬ in_int64 item_id →
  delete_item item_id (SessionLocal t o) =
    (inl (fault_response OtherError), SessionLocal t (tail o)).
Proof.
  intros Hf Hk. unfold delete_item, try_except, bind.
  by rewrite query_first_overflow.
Qed.

Lemma delete_item_absent item_id t o :
  mjoin (head o) = None → in_int64 item_id → t !! item_id = None →
  delete_item item_id (SessionLocal t o) =
    (inl (not_found item_id), SessionLocal t (tail o)).
Proof.
  intros Hf Hr Hk. unfold delete_item, try_except, bind.
  by rewrite query_first_absent.
Qed.

Lemma delete_item_present item_id t o row :
  mjoin (head o) = None → in_int64 item_id → t !! item_id = Some row →
  delete_item item_id (SessionLocal t o) =
    match mjoin (head (tail o)) with
    | Some DBError =>
        (inl (fault_response DBError),
         mkWorld t (tail (tail o)) [load item_id row] [] [] [0%nat])
    | Some OtherError =>
        (inl (fault_response OtherError),
         mkWorld t (tail (tail o)) [load item_id row] [] [0%nat] [0%nat])
    | None =>
        (inr (deleted_message item_id),
         mkWorld (delete item_id t) (tail (tail o))
           [load item_id row] [] [] [])
    end.
Proof.
  intros Hf Hr Hk. unfold delete_item, try_except, bind.
  rewrite (query_first_present _ _ _ row) by done.
  unfold delete_, commit, modify, bind. norm_world.
  destruct (mjoin (head (tail o))) as [f|] eqn:Hf1.
  - rewrite (db_call_fault _ _ _ _ _ _ f) by done.
    destruct f; cbn; [|done].
    unfold rollback, modify, bind, expire. norm_world. by rewrite Hk.
  - rewrite db_call_ok by done. by rewrite flush_deleted.
Qed.

End runs.

(** ** From handlers to endpoints *)

Lemma endpoint_run t o (handler : M body) r w :
  handler (SessionLocal t o) = (r, w) →
  endpoint t o handler = (respond r, table w).
Proof. intros Hrun. unfold endpoint, get_db. by rewrite Hrun. Qed.

Section validation.
Context `{Pydantic}.

Lemma missing_or_mistyped_None {A} (validate : pyval → option A) kw key :
  missing_or_mistyped validate kw key ↔ kw !! key ≫= validate = None.
Proof. unfold missing_or_mistyped. by destruct (kw !! key). Qed.

Lemma validate_fields_None kw : validate_fields kw = None ↔ ill_typed kw.
Proof.
  unfold ill_typed. rewrite !missing_or_mistyped_None. unfold validate_fields.
  destruct (kw !! "name" ≫= validate_str),
    (kw !! "description" ≫= validate_str),
    (kw !! "price" ≫= validate_int),
    (kw !! "quantity" ≫= validate_int); intuition congruence.
Qed.

Lemma validate_fields_Some kw data :
  validate_fields kw = Some data ↔
  kw !! "name" ≫= validate_str = Some (ib_name data) ∧
  kw !! "description" ≫= validate_str = Some (ib_description data) ∧
  kw !! "price" ≫= validate_int = Some (ib_price data) ∧
  kw !! "quantity" ≫= validate_int = Some (ib_quantity data).
Proof.
  unfold validate_fields. destruct data as [n d p q]; cbn.
  destruct (kw !! "name" ≫= validate_str),
    (kw !! "description" ≫= validate_str),
    (kw !! "price" ≫= validate_int),
    (kw !! "quantity" ≫= validate_int); intuition congruence.
Qed.


Lemma decode_valid req kw data :
  payload req = Some kw → validate_fields kw = Some data →
  decode req = inr data.
Proof. intros Hp Hv. unfold decode. by rewrite Hp, Hv. Qed.

End validation.

Lemma in_int64_between z : 0 ≤ z → z ≤ INT64_MAX → in_int64 z.
Proof. unfold in_int64, INT64_MIN. lia. Qed.

(** ** The lookup *)

Lemma get_present t o k row :
  no_faults o → in_int64 k → t !! k = Some row →
  get t o k = (inr (Some (load k row)), t).
Proof.
  intros Ho Hr Hk. unfold get, get_db, get_item, bind.
  by rewrite (query_first_present _ _ _ row) by auto using no_faults_head.
Qed.

Lemma get_absent t o k :
  no_faults o → in_int64 k → t !! k = None → get t o k = (inr None, t).
Proof.
  intros Ho Hr Hk. unfold get, get_db, get_item, bind.
  by rewrite query_first_absent by auto using no_faults_head.
Qed.

(** ** Creation *)

Section create.
Context `{Pydantic} `{Sqlite}.


End create.



(** ** Rejection *)

Section reject.
Context `{Pydantic} `{Sqlite}.

Lemma POST_items_ill_typed req kw t o :
  payload req = Some kw → validate_fields kw = None →
  POST_items t o req = (respond (inl (unprocessable req)), t).
Proof.
  intros Hpl Hv. unfold POST_items.
  by rewrite (endpoint_run _ _ _ _ _ (create_item_unprocessable _ _ _ Hpl Hv)).
Qed.

Lemma POST_items_negative req kw data t o :
  payload req = Some kw → validate_fields kw = Some data →
  ib_price data < 0 ∨ ib_quantity data < 0 →
  POST_items t o req = (respond (inl (negative_value data)), t).
Proof.
  intros Hpl Hv Hneg. unfold POST_items.
  by rewrite (endpoint_run _ _ _ _ _
    (create_item_negative _ _ _ (decode_valid _ _ _ Hpl Hv) Hneg)).
Qed.



(** C2, as amended.  A payload that passes type validation and has a
    negative price or a negative quantity is refused with status 400 and the
    message "Price cannot be negative" when the price is negative,
    "Quantity cannot be negative" otherwise.  Every payload whose price or
    quantity validates to a negative number, type-valid as a whole or not, is
    refused with status 400 or 422.  In both cases the table after the request
    is the table before it. *)
Theorem create_negative_rejected req kw t o :
  payload req = Some kw →
  (∀ data,
     validate_fields kw = Some data →
     ib_price data < 0 ∨ ib_quantity data < 0 →
     POST_items t o req =
       (Error status.HTTP_400_BAD_REQUEST
          (if decide (ib_price data < 0) then "Price cannot be negative"
           else "Quantity cannot be negative"), t)) ∧
  (∀ p,
     kw !! "price" ≫= validate_int = Some p ∨
     kw !! "quantity" ≫= validate_int = Some p →
     p < 0 →
     ∃ c d,
       (c = status.HTTP_400_BAD_REQUEST ∨
        c = status.HTTP_422_UNPROCESSABLE_ENTITY) ∧
       POST_items t o req = (Error c d, t)).
Proof.
  intros Hpl. split.
  - intros data Hv Hneg. by rewrite (POST_items_negative _ kw data).
  - intros p Hfield Hneg.
    destruct (validate_fields kw) as [data|] eqn:Hv.
    + exists status.HTTP_400_BAD_REQUEST. eexists. split; [by left|].
      rewrite (POST_items_negative _ kw data); [done..|].
      apply validate_fields_Some in Hv as (_ & _ & Hp & Hq).
      destruct Hfield as [Hf|Hf]; rewrite Hf in *; simplify_eq; lia.
    + exists status.HTTP_422_UNPROCESSABLE_ENTITY. eexists.
      split; [by right|]. by rewrite (POST_items_ill_typed _ kw).
Qed.


End reject.

Lemma create_negative_rejected_witness :
  @POST_items strict no_candidate ∅ [] (json_request bad) =
    (Error 400 "Price cannot be negative", ∅).
Proof.
  destruct (@create_negative_rejected strict no_candidate (json_request bad)
              bad ∅ [] eq_refl) as [Hbad _].
  apply (Hbad (mkItemBase "Bad" "x" (-1) 5) eq_refl).
  left. reflexivity.
Defined.

(** The claim C2 as it stands fails: this payload has a negative price and
    is refused with status 422, not 400, because it has no name. *)
Lemma negative_price_unprocessable :
  payload (json_request nameless) = Some nameless ∧
  nameless !! "price" = Some (PInt (-1)) ∧
  @POST_items strict no_candidate ∅ [] (json_request nameless) =
    (Error 422 "Invalid JSON data format", ∅).
Proof. repeat split; reflexivity. Qed.


(** ** Absent keys *)

Section absent.
Context `{Pydantic} `{Sqlite}.

Lemma DELETE_items_absent item_id t o :
  in_int64 item_id → t !! item_id = None → no_faults o →
  DELETE_items t o item_id = (respond (inl (not_found item_id)), t).
Proof.
  intros Hr Hk Ho. unfold DELETE_items.
  by rewrite (endpoint_run _ _ _ _ _
    (delete_item_absent _ _ _ (no_faults_head _ Ho) Hr Hk)).
Qed.

(** C4, as amended.  An update that names a key the table does not have
    leaves the table as it was, whatever the payload and whatever the store
    does, and is answered with status 404 when the key is a 64-bit integer
    and the lookup raises no fault: the key is looked up before the payload
    is examined, so an invalid payload gets the same answer as a valid
    one. *)
Theorem update_absent item_id req t o :
  t !! item_id = None →
  (PUT_items t o item_id req).2 = t ∧
  (in_int64 item_id → no_faults o →
   (PUT_items t o item_id req).1 =
     Error status.HTTP_404_NOT_FOUND
       ("Item with id " +:+ pretty item_id +:+ " not found")).
Proof.
  intros Hk. unfold PUT_items.
  destruct (mjoin (head o)) as [f|] eqn:Hf.
  { rewrite (endpoint_run _ _ _ _ _
      (update_item_lookup_fault item_id req t o f Hf)).
    split; [done|]. intros _ Ho%no_faults_head. congruence. }
  destruct (decide (in_int64 item_id)) as [Hr|Hr].
  - by rewrite (endpoint_run _ _ _ _ _
      (update_item_absent item_id req t o Hf Hr Hk)).
  - by rewrite (endpoint_run _ _ _ _ _
      (update_item_overflow item_id req t o Hf Hr)).
Qed.

(** C5, as amended.  Deleting a key the table does not have is answered
    with status 404.  Deleting a key it has is answered with the success
    confirmation and removes the row, so that deleting the same key again
    is answered with status 404.  Both hold for keys that are 64-bit
    integers and runs in which the store raises no fault. *)
Theorem delete_twice item_id t o :
  in_int64 item_id → no_faults o →
  (t !! item_id = None →
   DELETE_items t o item_id =
     (Error status.HTTP_404_NOT_FOUND
        ("Item with id " +:+ pretty item_id +:+ " not found"), t)) ∧
  (is_Some (t !! item_id) →
   DELETE_items t o item_id =
     (Ok (MessageBody "success"
            ("Item " +:+ pretty item_id +:+ " deleted successfully")),
      delete item_id t) ∧
   ∀ o', no_faults o' →
     DELETE_items (delete item_id t) o' item_id =
       (Error status.HTTP_404_NOT_FOUND
          ("Item with id " +:+ pretty item_id +:+ " not found"),
        delete item_id t)).
Proof.
  intros Hr Ho. split.
  - intros Hk. by rewrite DELETE_items_absent.
  - intros [row Hk]. split.
    + unfold DELETE_items, endpoint, get_db.
      rewrite (delete_item_present _ _ _ row)
        by auto using no_faults_head.
      by rewrite (no_faults_head (tail o)) by auto using no_faults_tail.
    + intros o' Ho'. rewrite DELETE_items_absent; [done|done| |done].
      apply lookup_delete_eq.
Qed.

End absent.

Lemma update_absent_witness :
  (@PUT_items strict no_candidate {[1 := widget_row]} [] 999
     (json_request widget)).2 = {[1 := widget_row]} ∧
  (@PUT_items strict no_candidate {[1 := widget_row]} [] 999
     (form_request None None None None)).1 =
    Error 404 "Item with id 999 not found".
Proof.
  split.
  - apply (@update_absent strict no_candidate 999 (json_request widget)
             {[1 := widget_row]} []).
    reflexivity.
  - apply (@update_absent strict no_candidate 999
             (form_request None None None None) {[1 := widget_row]} []).
    + reflexivity.
    + unfold in_int64, INT64_MIN, INT64_MAX. lia.
    + constructor.
Defined.

(** The claim C4 as it stands fails: the key 2^63 is not in the table, but
    binding it for the lookup raises, and the answer is 500, not 404, though
    the store raises no fault. *)
Lemma update_absent_oversized_id :
  (∅ : gmap Z Row) !! (2 ^ 63) = None ∧
  @PUT_items strict no_candidate ∅ [] (2 ^ 63) (json_request widget) =
    (Error 500 "Internal server error", ∅).
Proof. split; reflexivity. Qed.

Lemma delete_twice_witness :
  @DELETE_items no_candidate {[1 := widget_row]} [] 1 =
    (Ok (MessageBody "success" "Item 1 deleted successfully"),
     delete 1 {[1 := widget_row]}) ∧
  @DELETE_items no_candidate (delete 1 {[1 := widget_row]}) [] 1 =
    (Error 404 "Item with id 1 not found", delete 1 {[1 := widget_row]}).
Proof.
  destruct (@delete_twice no_candidate 1 {[1 := widget_row]} [])
    as [_ Hpresent].
  { unfold in_int64, INT64_MIN, INT64_MAX. lia. }
  { constructor. }
  destruct Hpresent as [Hfirst Hsecond].
  { exists widget_row. reflexivity. }
  split; [exact Hfirst|]. apply Hsecond. constructor.
Defined.

(** The claim C5 as it stands fails: the key 2^63 is not in the table, but
    binding it for the lookup raises, and the answer is 500, not 404, though
    the store raises no fault. *)
Lemma delete_absent_oversized_id :
  (∅ : gmap Z Row) !! (2 ^ 63) = None ∧
  @DELETE_items no_candidate ∅ [] (2 ^ 63) =
    (Error 500 "Internal server error", ∅).
Proof. split; reflexivity. Qed.

(** ** Every run of every operation *)

Lemma raised_0 t o h n d im : raised o (mkWorld t o h n d im) = None.
Proof. unfold raised. cbn. by rewrite Nat.sub_diag. Qed.

Lemma raised_1 t o h n d im :
  raised o (mkWorld t (tail o) h n d im) = mjoin (head o).
Proof.
  unfold raised. destruct o as [|a o]; [done|]. cbn [oracle tail length].
  by replace (S (length o) - length o)%nat with 1%nat by lia.
Qed.

Lemma raised_2 t o h n d im :
  mjoin (head o) = None →
  raised o (mkWorld t (tail (tail o)) h n d im) = mjoin (head (tail o)).
Proof.
  unfold raised. destruct o as [|a [|b o]]; [done|done|].
  cbn [oracle tail length]. intros _.
  by replace (S (S (length o)) - length o)%nat with 2%nat by lia.
Qed.

Lemma raised_3 t o h n d im :
  mjoin (head o) = None → mjoin (head (tail o)) = None →
  raised o (mkWorld t (tail (tail (tail o))) h n d im) =
    mjoin (head (tail (tail o))).
Proof.
  unfold raised. destruct o as [|a [|b [|c o]]]; [done|done|done|].
  cbn [oracle tail length]. intros _ _.
  by replace (S (S (S (length o))) - length o)%nat with 3%nat by lia.
Qed.

Lemma clean_untracked t o h : clean (mkWorld t o h [] [] []).
Proof. repeat split. intros r Hr. by apply elem_of_nil in Hr. Qed.

Lemma clean_loaded t o k row :
  t !! k = Some row → clean (mkWorld t o [load k row] [] [] [0%nat]).
Proof.
  intros Hk. repeat split. intros r ->%list_elem_of_singleton.
  by exists k, row.
Qed.

Section every_run.
Context `{Pydantic} `{Sqlite}.

Lemma decode_update_inl req e :
  decode_update req = inl e →
  e = HTTPException status.HTTP_422_UNPROCESSABLE_ENTITY "Invalid data format".
Proof.
  unfold decode_update. destruct (item req); [done|].
  destruct (validate_fields _); congruence.
Qed.

Lemma create_item_refused req e w :
  decode req = inl e →
  create_item req w = (inl (match e with
                            | HTTPException c d => HTTPException c d
                            | _ => fault_response OtherError
                            end), w).
Proof.
  intros Hd. unfold create_item, try_except, bind. rewrite decode_run, Hd.
  unfold decode in Hd. destruct (payload req); [|by simplify_eq].
  destruct (validate_fields _); by simplify_eq.
Qed.

(** Whatever the request and whatever the store does, a run ends with the
    table as it was or with the whole change committed; when the store raised
    an SQLAlchemyError the handler answers 503 and leaves a clean session. *)
Lemma run_cases op t o :
  (table (handler op (SessionLocal t o)).2 = t ∨
   committed op t (table (handler op (SessionLocal t o)).2)) ∧
  (raised o (handler op (SessionLocal t o)).2 = Some DBError →
   (handler op (SessionLocal t o)).1 = inl (fault_response DBError) ∧
   clean (handler op (SessionLocal t o)).2).
Proof.
  destruct op as [req|item_id req|item_id]; cbn [handler committed].
  - destruct (decode req) as [e|data] eqn:Hd.
    { rewrite (create_item_refused _ e) by done. cbn. unfold SessionLocal.
      split; [by left|]. by rewrite raised_0. }
    destruct (decide (ib_price data < 0 ∨ ib_quantity data < 0)) as [Hneg|Hok].
    { rewrite (create_item_negative _ data) by done. cbn. unfold SessionLocal.
      split; [by left|]. by rewrite raised_0. }
    rewrite (create_item_commit _ data) by (done || lia). cbn zeta.
    destruct (mjoin (head o)) as [[]|] eqn:Hf; cbn.
    + split; [by left|]. intros _. split; [done|]. apply clean_untracked.
    + split; [by left|]. by rewrite raised_1, Hf.
    + destruct (decide (storable_data data)); last first.
      { cbn. split; [by left|]. by rewrite raised_1, Hf. }
      destruct (next_rowid t) as [k|] eqn:Hk; last first.
      { cbn. split; [by left|]. by rewrite raised_1, Hf. }
      cbn. split.
      { right. exists data, k. repeat split; (done || lia). }
      rewrite raised_2 by done. intros ->. split; [done|].
      apply (clean_loaded _ _ _ (row_of_data data)), lookup_insert_eq.
  - destruct (mjoin (head o)) as [f|] eqn:Hf.
    { rewrite (update_item_lookup_fault _ _ _ _ f) by done. cbn.
      unfold SessionLocal.
      split; [by left|]. rewrite raised_1, Hf. intros [= ->].
      split; [done|]. apply clean_untracked. }
    destruct (decide (in_int64 item_id)) as [Hr|Hr]; last first.
    { rewrite update_item_overflow by done. cbn. unfold SessionLocal.
      split; [by left|]. by rewrite raised_1, Hf. }
    destruct (t !! item_id) as [row|] eqn:Hk; last first.
    { rewrite update_item_absent by done. cbn. unfold SessionLocal.
      split; [by left|]. by rewrite raised_1, Hf. }
    destruct (decode_update req) as [e|data] eqn:Hd.
    { pose proof (decode_update_inl _ _ Hd) as ->.
      rewrite (update_item_invalid _ _ _ _ row _ _) by done. cbn.
      split; [by left|]. by rewrite raised_1, Hf. }
    destruct (decide (ib_price data < 0 ∨ ib_quantity data < 0)) as [Hneg|Hok].
    { rewrite (update_item_negative _ _ _ _ row data) by done. cbn.
      split; [by left|]. by rewrite raised_1, Hf. }
    rewrite (update_item_commit _ _ _ _ row data) by (done || lia).
    destruct (mjoin (head (tail o))) as [[]|] eqn:Hf1; cbn.
    + split; [by left|]. intros _. split; [done|]. by apply clean_loaded.
    + split; [by left|]. by rewrite raised_2, Hf1.
    + destruct (decide (storable_data data)); last first.
      { cbn. split; [by left|]. by rewrite raised_2, Hf1. }
      cbn. split.
      { right. exists data. repeat split; (done || lia). }
      rewrite raised_3 by done. intros ->. split; [done|].
      apply (clean_loaded _ _ _ (row_of_data data)), lookup_insert_eq.
  - destruct (mjoin (head o)) as [f|] eqn:Hf.
    { rewrite (delete_item_lookup_fault _ _ _ f) by done. cbn.
      unfold SessionLocal.
      split; [by left|]. rewrite raised_1, Hf. intros [= ->].
      split; [done|]. apply clean_untracked. }
    destruct (decide (in_int64 item_id)) as [Hr|Hr]; last first.
    { rewrite delete_item_overflow by done. cbn. unfold SessionLocal.
      split; [by left|]. by rewrite raised_1, Hf. }
    destruct (t !! item_id) as [row|] eqn:Hk; last first.
    { rewrite delete_item_absent by done. cbn. unfold SessionLocal.
      split; [by left|]. by rewrite raised_1, Hf. }
    rewrite (delete_item_present _ _ _ row) by done.
    destruct (mjoin (head (tail o))) as [[]|] eqn:Hf1; cbn.
    + split; [by left|]. intros _. split; [done|]. by apply clean_loaded.
    + split; [by left|]. by rewrite raised_2, Hf1.
    + split; [by right|]. by rewrite raised_2, Hf1.
Qed.

(** The answer of a run is decided by the fault the store raised, if it
    raised one, and otherwise by the refusal, if there is one.  A create
    whose row got a key that does not fit the column is written and then
    fails to read the row back. *)
Lemma run_outcome op t o :
  match raised o (handler op (SessionLocal t o)).2 with
  | Some f => (handler op (SessionLocal t o)).1 = inl (fault_response f)
  | None =>
      match refused op t with
      | Some e =>
          (handler op (SessionLocal t o)).1 = inl e ∧
          table (handler op (SessionLocal t o)).2 = t
      | None =>
          (∃ b, (handler op (SessionLocal t o)).1 = inr b ∧
                succeeded op t b (table (handler op (SessionLocal t o)).2)) ∨
          ((handler op (SessionLocal t o)).1 =
             inl (fault_response OtherError) ∧
           ∃ req k, op = Create req ∧ next_rowid t = Some k ∧ ¬ in_int64 k)
      end
  end.
Proof.
  destruct op as [req|item_id req|item_id]; cbn [handler refused succeeded].
  - destruct (decode req) as [e|data] eqn:Hd.
    { rewrite (create_item_refused _ e) by done. cbn. unfold SessionLocal.
      rewrite raised_0. by destruct e. }
    unfold storage_refusal, domain_refusal. destruct (decide _) as [Hneg|Hok].
    { rewrite (create_item_negative _ data) by done. cbn. unfold SessionLocal.
      by rewrite raised_0. }
    rewrite (create_item_commit _ data) by (done || lia). cbn zeta.
    destruct (mjoin (head o)) as [f|] eqn:Hf.
    { destruct f; cbn; by rewrite raised_1, Hf. }
    destruct (decide (storable_data data)); last first.
    { cbn. by rewrite raised_1, Hf. }
    destruct (next_rowid t) as [k|] eqn:Hk; last first.
    { cbn. by rewrite raised_1, Hf. }
    cbn. rewrite raised_2 by done.
    destruct (mjoin (head (tail o))) as [f|]; [done|].
    destruct (decide (in_int64 k)).
    + left. eexists. split; [done|]. by exists data, k.
    + right. split; [done|]. by exists req, k.
  - destruct (mjoin (head o)) as [f|] eqn:Hf.
    { rewrite (update_item_lookup_fault _ _ _ _ f) by done. cbn.
      unfold SessionLocal. by rewrite raised_1, Hf. }
    destruct (decide (in_int64 item_id)) as [Hr|Hr]; last first.
    { rewrite update_item_overflow by done. cbn. unfold SessionLocal.
      by rewrite raised_1, Hf. }
    destruct (t !! item_id) as [row|] eqn:Hk; last first.
    { rewrite update_item_absent by done. cbn. unfold SessionLocal.
      by rewrite raised_1, Hf. }
    destruct (decode_update req) as [e|data] eqn:Hd.
    { pose proof (decode_update_inl _ _ Hd) as ->.
      rewrite (update_item_invalid _ _ _ _ row _ _) by done. cbn.
      by rewrite raised_1, Hf. }
    unfold storage_refusal, domain_refusal. destruct (decide _) as [Hneg|Hok].
    { rewrite (update_item_negative _ _ _ _ row data) by done. cbn.
      by rewrite raised_1, Hf. }
    rewrite (update_item_commit _ _ _ _ row data) by (done || lia).
    destruct (mjoin (head (tail o))) as [f|] eqn:Hf1.
    { destruct f; cbn; by rewrite raised_2, Hf1. }
    destruct (decide (storable_data data)); last first.
    { cbn. by rewrite raised_2, Hf1. }
    cbn. rewrite raised_3 by done.
    destruct (mjoin (head (tail (tail o)))) as [f|]; [done|].
    left. eexists. split; [done|]. by exists data.
  - destruct (mjoin (head o)) as [f|] eqn:Hf.
    { rewrite (delete_item_lookup_fault _ _ _ f) by done. cbn.
      unfold SessionLocal. by rewrite raised_1, Hf. }
    destruct (decide (in_int64 item_id)) as [Hr|Hr]; last first.
    { rewrite delete_item_overflow by done. cbn. unfold SessionLocal.
      by rewrite raised_1, Hf. }
    destruct (t !! item_id) as [row|] eqn:Hk; last first.
    { rewrite delete_item_absent by done. cbn. unfold SessionLocal.
      by rewrite raised_1, Hf. }
    rewrite (delete_item_present _ _ _ row) by done.
    destruct (mjoin (head (tail o))) as [f|] eqn:Hf1.
    + destruct f; cbn; by rewrite raised_2, Hf1.
    + cbn. rewrite raised_2, Hf1 by done. left. by eexists.
Qed.


Lemma refused_update_exception item_id req t e :
  refused (Update item_id req) t = Some e → ∃ c d, e = HTTPException c d.
Proof.
  cbn [refused]. case_decide; [|intros [= <-]; by eexists _, _].
  destruct (t !! item_id); [|intros [= <-]; by eexists _, _].
  destruct (decode_update req) as [e'|data] eqn:Hd.
  - pose proof (decode_update_inl _ _ Hd) as ->. intros [= <-].
    by eexists _, _.
  - unfold storage_refusal, domain_refusal.
    repeat case_decide; intros [= <-]; by eexists _, _.
Qed.

End every_run.

Section operations.
Context `{Pydantic} `{Sqlite}.

Lemma app_run op t o :
  app t o op =
    (respond (handler op (SessionLocal t o)).1,
     table (handler op (SessionLocal t o)).2).
Proof. unfold app, endpoint, get_db. by destruct (handler op _). Qed.

Lemma committed_non_negative op t t' :
  non_negative t → committed op t t' → non_negative t'.
Proof.
  intros Ht. destruct op as [req|item_id req|item_id]; cbn.
  - intros (data & k & _ & Hp & Hq & _ & ->). by apply map_Forall_insert_2.
  - intros (data & _ & _ & Hp & Hq & ->). by apply map_Forall_insert_2.
  - intros [_ ->]. by apply map_Forall_delete.
Qed.

Lemma validate_fields_form n d p q :
  validate_fields (form_kwargs (Some n) (Some d) (Some p) (Some q)) =
    Some (mkItemBase n d p q).
Proof. reflexivity. Qed.

Lemma decode_update_payload req data :
  update_payload req data → decode_update req = inr data.
Proof.
  unfold decode_update.
  intros [->|(-> & -> & -> & -> & ->)]; [done|].
  rewrite validate_fields_form. by destruct data.
Qed.

(** C6.  For each of create, update and delete, whatever the request and
    whatever the store does: when the store raises an SQLAlchemyError, the
    handler answers 503 "Database error occurred" and, by the time it does,
    has rolled the session back, so that nothing is pending and no tracked
    object differs from its row; and the table at the end of the run is
    either the table before it or the table with the whole change in it,
    all fields and the assigned key, never a part of the change. *)
Theorem store_fault_rolled_back op t o :
  (raised o (handler op (SessionLocal t o)).2 = Some DBError →
   (app t o op).1 =
     Error status.HTTP_503_SERVICE_UNAVAILABLE "Database error occurred" ∧
   clean (handler op (SessionLocal t o)).2) ∧
  ((app t o op).2 = t ∨ committed op t (app t o op).2).
Proof.
  rewrite app_run. cbn [fst snd].
  destruct (run_cases op t o) as [Hatomic Hfault]. split; [|done].
  intros Hraised. destruct (Hfault Hraised) as [Hr Hclean].
  split; [|done]. cbn in Hr. by rewrite Hr.
Qed.

Lemma app_non_negative op t o :
  non_negative t → non_negative (app t o op).2.
Proof.
  intros Ht. rewrite app_run. cbn [snd].
  destruct (run_cases op t o) as [[->|Hc] _]; [done|].
  by apply (committed_non_negative op t).
Qed.

Lemma app_rowids_positive op t o :
  rowids_positive t → rowids_positive (app t o op).2.
Proof.
  intros Ht. rewrite app_run. cbn [snd].
  destruct (run_cases op t o) as [[->|Hc] _]; [done|].
  destruct op as [req|item_id req|item_id]; cbn [handler committed] in *.
  - destruct Hc as (data & k & _ & _ & _ & Hk & ->).
    by apply rowids_positive_insert.
  - destruct Hc as (data & [row Hk] & _ & _ & _ & ->).
    apply map_Forall_insert_2; [|done]. apply (Ht _ _ Hk).
  - destruct Hc as [_ ->]. by apply map_Forall_delete.
Qed.

(** X12.  Keys stay positive: from a table whose keys are all at least 1,
    every table reached through creates, updates and deletes, whatever the
    requests and whatever the store does, has only keys that are at least
    1. *)
Lemma rowids_positive_reachable t0 t :
  rowids_positive t0 → reachable_from t0 t → rowids_positive t.
Proof. induction 2; auto using app_rowids_positive. Qed.

(** C7.  Each of create, update and delete, whatever the request and
    whatever the store does, takes a table in which every row has a price and
    a quantity that are not negative to a table with the same property; hence
    every table reached from such a table through these operations has
    it. *)
Theorem non_negative_preserved op t o :
  non_negative t →
  non_negative (app t o op).2 ∧
  ∀ t', reachable_from t t' → non_negative t'.
Proof.
  intros Ht. split; [by apply app_non_negative|].
  intros t' Hreach. induction Hreach as [|t' o' op' _ IH]; [done|].
  by apply app_non_negative.
Qed.

(** C9.  An update of a key the table has, with a valid payload whose
    integers fit the columns and no fault of the store, is answered with the
    record of that same key and the four fields of the payload, and puts
    exactly these four fields under that key; and every update that is
    answered with success, whatever the store did, named a key the table
    had, returned the record of that key with the four fields of its payload
    and put exactly these under the key.  No update, successful or not,
    changes the set of keys.  No operation changes a row other than the one
    it names, and no key appears in the table other than the one a create
    assigns: a record keeps the key it was created with for as long as it
    exists. *)
Theorem update_keeps_id op item_id req data t o :
  (is_Some (t !! item_id) → in_int64 item_id → update_payload req data →
   0 ≤ ib_price data ≤ INT64_MAX → 0 ≤ ib_quantity data ≤ INT64_MAX →
   no_faults o →
   PUT_items t o item_id req =
     (Ok (ItemBody "success"
            (mkItem (Some item_id) (ib_name data) (ib_description data)
               (ib_price data) (ib_quantity data))),
      <[item_id := mkRow (ib_name data) (ib_description data)
                     (ib_price data) (ib_quantity data)]> t)) ∧
  (∀ b, (PUT_items t o item_id req).1 = Ok b →
        ∃ data', decode_update req = inr data' ∧ is_Some (t !! item_id) ∧
          b = ItemBody "success"
                (mkItem (Some item_id) (ib_name data') (ib_description data')
                   (ib_price data') (ib_quantity data')) ∧
          (PUT_items t o item_id req).2 =
            <[item_id := mkRow (ib_name data') (ib_description data')
                           (ib_price data') (ib_quantity data')]> t) ∧
  dom (PUT_items t o item_id req).2 = dom t ∧
  (∀ k, target op ≠ Some k → is_Some (t !! k) →
        (app t o op).2 !! k = t !! k) ∧
  (∀ k, is_Some ((app t o op).2 !! k) →
        is_Some (t !! k) ∨ ∃ req', op = Create req' ∧ next_rowid t = Some k).
Proof.
  split; [|split; [|split; [|split]]].
  - intros [row Hk] Hr Hpl%decode_update_payload [Hp0 Hp1] [Hq0 Hq1] Ho.
    assert (storable_data data) by (split; by apply in_int64_between).
    unfold PUT_items, endpoint, get_db.
    rewrite (update_item_valid _ _ _ _ row data)
      by auto using no_faults_head.
    by rewrite (no_faults_head (tail o)),
      (no_faults_head (tail (tail o))) by auto using no_faults_tail.
  - intros b. change (PUT_items t o item_id req)
      with (app t o (Update item_id req)).
    rewrite app_run. cbn [fst snd]. intros Hb.
    pose proof (run_outcome (Update item_id req) t o) as Hrun.
    destruct (raised o _) as [f|].
    { rewrite Hrun in Hb. by destruct f. }
    destruct (refused (Update item_id req) t) as [e|] eqn:Hrefused.
    { destruct Hrun as [Hrun _]. rewrite Hrun in Hb.
      destruct (refused_update_exception _ _ _ _ Hrefused) as (c & d & ->).
      done. }
    destruct Hrun as [(b' & Hb' & Hs)|[_ (? & ? & [=] & _)]].
    rewrite Hb' in Hb. cbn in Hb. injection Hb as <-.
    cbn [succeeded] in Hs. destruct Hs as (data' & Hd & _ & -> & ->).
    exists data'. repeat split; [done|].
    cbn [refused] in Hrefused. case_decide; [|done].
    by destruct (t !! item_id).
  - change (PUT_items t o item_id req) with (app t o (Update item_id req)).
    rewrite app_run. cbn [snd].
    destruct (run_cases (Update item_id req) t o) as [[->|Hc] _]; [done|].
    destruct Hc as (data' & Hk & _ & _ & _ & ->).
    apply dom_insert_lookup_L, Hk.
  - intros k Hne Hk. rewrite app_run. cbn [snd].
    destruct (run_cases op t o) as [[->|Hc] _]; [done|].
    destruct op as [req'|item_id' req'|item_id'];
      cbn [handler committed target] in *.
    + destruct Hc as (data' & k' & _ & _ & _ & Hk' & ->).
      apply lookup_insert_ne. intros <-.
      rewrite (next_rowid_fresh _ _ Hk') in Hk. by destruct Hk.
    + destruct Hc as (data' & _ & _ & _ & _ & ->).
      apply lookup_insert_ne. congruence.
    + destruct Hc as [_ ->]. apply lookup_delete_ne. congruence.
  - intros k. rewrite app_run. cbn [snd].
    destruct (run_cases op t o) as [[->|Hc] _]; [by left|].
    destruct op as [req'|item_id' req'|item_id'];
      cbn [handler committed] in *.
    + destruct Hc as (data' & k' & _ & _ & _ & Hk' & ->).
      destruct (decide (k' = k)) as [<-|Hne]; [by eauto|].
      rewrite lookup_insert_ne by done. by left.
    + destruct Hc as (data' & Hk & _ & _ & _ & ->).
      destruct (decide (item_id' = k)) as [<-|Hne]; [by left|].
      rewrite lookup_insert_ne by done. by left.
    + destruct Hc as [_ ->]. intros Hk. left.
      destruct (decide (item_id' = k)) as [<-|Hne].
      * rewrite lookup_delete_eq in Hk. by destruct Hk.
      * by rewrite lookup_delete_ne in Hk.
Qed.

(** ** The two encodings *)

Lemma payload_json req kw : is_json_request req kw → payload req = Some kw.
Proof. intros [Hct Hj]. unfold payload. by rewrite decide_True, Hj. Qed.




Lemma create_item_decode req1 req2 w :
  decode req1 = decode req2 → create_item req1 w = create_item req2 w.
Proof.
  intros Hd. unfold create_item, try_except, bind.
  by rewrite !decode_run, Hd.
Qed.

Lemma POST_items_decode req1 req2 t o :
  decode req1 = decode req2 → POST_items t o req1 = POST_items t o req2.
Proof.
  intros Hd. unfold POST_items, endpoint, get_db.
  by rewrite (create_item_decode req1 req2).
Qed.



End operations.

(** ** The theorems on the scenarios *)

Lemma store_fault_rolled_back_witness :
  (@app strict no_candidate {[1 := widget_row]} [None; Some DBError]
     (Update 1 (form_request (Some "Gadget") (Some "A gadget") (Some 12) (Some 0)))).1 =
    Error 503 "Database error occurred" ∧
  clean
    (@handler strict no_candidate
       (Update 1 (form_request (Some "Gadget") (Some "A gadget") (Some 12) (Some 0)))
       (SessionLocal {[1 := widget_row]} [None; Some DBError])).2.
Proof.
  apply (@store_fault_rolled_back strict no_candidate
           (Update 1 (form_request (Some "Gadget") (Some "A gadget")
                        (Some 12) (Some 0)))
           {[1 := widget_row]} [None; Some DBError]).
  reflexivity.
Defined.

Lemma non_negative_preserved_witness :
  non_negative
    (@app strict no_candidate {[1 := widget_row]} []
       (Update 1 (form_request (Some "Gadget") (Some "A gadget") (Some (-3)) (Some 0)))).2.
Proof.
  destruct (@non_negative_preserved strict no_candidate
              (Update 1 (form_request (Some "Gadget") (Some "A gadget")
                           (Some (-3)) (Some 0)))
              {[1 := widget_row]} []) as [Hstep _].
  - apply map_Forall_singleton. cbn. lia.
  - exact Hstep.
Defined.

Lemma update_keeps_id_witness :
  @PUT_items strict no_candidate {[1 := widget_row]} [] 1
    (form_request (Some "Gadget") (Some "A gadget") (Some 12) (Some 0)) =
    (Ok (ItemBody "success" (mkItem (Some 1) "Gadget" "A gadget" 12 0)),
     <[1 := mkRow "Gadget" "A gadget" 12 0]> {[1 := widget_row]}).
Proof.
  destruct (@update_keeps_id strict no_candidate (Delete 1) 1
              (form_request (Some "Gadget") (Some "A gadget") (Some 12) (Some 0))
              (mkItemBase "Gadget" "A gadget" 12 0)
              {[1 := widget_row]} []) as [Hupdate _].
  apply Hupdate.
  - exists widget_row. reflexivity.
  - unfold in_int64, INT64_MIN, INT64_MAX. lia.
  - right. repeat split; reflexivity.
  - cbn. unfold INT64_MAX. lia.
  - cbn. unfold INT64_MAX. lia.
  - constructor.
Defined.



(** ** What a run answers *)

Section outcomes.
Context `{Pydantic} `{Sqlite}.

Lemma decode_inl req e :
  decode req = inl e → e = OtherException ∨ e = unprocessable req.
Proof.
  unfold decode. destruct (payload req); [|intuition congruence].
  destruct (validate_fields _); intuition congruence.
Qed.

Lemma domain_refusal_Some data e :
  domain_refusal data = Some e → e = negative_value data.
Proof. unfold domain_refusal. case_decide; congruence. Qed.

Lemma domain_refusal_None data :
  domain_refusal data = None → 0 ≤ ib_price data ∧ 0 ≤ ib_quantity data.
Proof. unfold domain_refusal. case_decide; [done|]. lia. Qed.

Lemma storage_refusal_Some data e :
  storage_refusal data = Some e →
  e = negative_value data ∨ e = fault_response OtherError.
Proof.
  unfold storage_refusal.
  destruct (domain_refusal data) as [e'|] eqn:Hd.
  - apply domain_refusal_Some in Hd as ->. intros [= <-]. by left.
  - case_decide; [done|]. intros [= <-]. by right.
Qed.

(** A refusal is an [HTTPException] of the refusing check's status. *)
Lemma refused_status op t e :
  refused op t = Some e →
  ∃ c d, e = HTTPException c d ∧
    match op with
    | Create _ =>
        c = status.HTTP_400_BAD_REQUEST ∨
        c = status.HTTP_422_UNPROCESSABLE_ENTITY ∨
        c = status.HTTP_500_INTERNAL_SERVER_ERROR ∨
        c = status.HTTP_503_SERVICE_UNAVAILABLE
    | Update _ _ =>
        c = status.HTTP_400_BAD_REQUEST ∨
        c = status.HTTP_404_NOT_FOUND ∨
        c = status.HTTP_422_UNPROCESSABLE_ENTITY ∨
        c = status.HTTP_500_INTERNAL_SERVER_ERROR
    | Delete _ =>
        c = status.HTTP_404_NOT_FOUND ∨
        c = status.HTTP_500_INTERNAL_SERVER_ERROR
    end.
Proof.
  destruct op as [req|item_id req|item_id]; cbn [refused].
  - destruct (decode req) as [e'|data] eqn:Hd.
    + destruct (decode_inl _ _ Hd) as [->| ->]; intros [= <-];
        eexists _, _; (split; [reflexivity|]); auto.
    + destruct (storage_refusal data) as [e'|] eqn:Hs.
      * intros [= <-].
        destruct (storage_refusal_Some _ _ Hs) as [->| ->];
          eexists _, _; (split; [reflexivity|]); auto.
      * destruct (next_rowid t); [done|]. intros [= <-].
        eexists _, _. split; [reflexivity|]. auto.
  - case_decide; last first.
    { intros [= <-]. eexists _, _. split; [reflexivity|]. auto. }
    destruct (t !! item_id); last first.
    { intros [= <-]. eexists _, _. split; [reflexivity|]. auto. }
    destruct (decode_update req) as [e'|data] eqn:Hd.
    + pose proof (decode_update_inl _ _ Hd) as ->. intros [= <-].
      eexists _, _. split; [reflexivity|]. auto.
    + intros [->| ->]%storage_refusal_Some; eexists _, _;
        (split; [reflexivity|]); auto.
  - case_decide; last first.
    { intros [= <-]. eexists _, _. split; [reflexivity|]. auto. }
    destruct (t !! item_id); [done|]. intros [= <-].
    eexists _, _. split; [reflexivity|]. auto.
Qed.

(** X1.  Whatever the request and whatever the store does, the only
    exception that leaves [create_item], [update_item] or [delete_item] is an
    [HTTPException] with status 400, 404, 422, 500 or 503; [create_item]
    never raises 404 and [delete_item] never raises 400 or 422. *)
Theorem handlers_raise_known_status op t o e :
  (handler op (SessionLocal t o)).1 = inl e →
  ∃ c d,
    e = HTTPException c d ∧ c ∈ known_status ∧
    match op with
    | Create _ => c ≠ status.HTTP_404_NOT_FOUND
    | Update _ _ => True
    | Delete _ =>
        c ≠ status.HTTP_400_BAD_REQUEST ∧
        c ≠ status.HTTP_422_UNPROCESSABLE_ENTITY
    end.
Proof.
  intros Hr. pose proof (run_outcome op t o) as Hrun. rewrite Hr in Hrun.
  assert (∀ f, e = fault_response f →
            ∃ c d, e = HTTPException c d ∧ c ∈ known_status ∧
              match op with
              | Create _ => c ≠ status.HTTP_404_NOT_FOUND
              | Update _ _ => True
              | Delete _ =>
                  c ≠ status.HTTP_400_BAD_REQUEST ∧
                  c ≠ status.HTTP_422_UNPROCESSABLE_ENTITY
              end) as Hfault.
  { intros f ->. destruct f; eexists _, _; (split; [reflexivity|]);
      (split; [unfold known_status; rewrite !elem_of_cons; auto 10|]);
      by destruct op. }
  destruct (raised o _) as [f|].
  - simplify_eq. by apply (Hfault f).
  - destruct (refused op t) as [e'|] eqn:Hrefused.
    + destruct Hrun as [[= <-] _].
      destruct (refused_status _ _ _ Hrefused) as (c & d & -> & Hc).
      exists c, d. split; [done|]. unfold known_status.
      rewrite !elem_of_cons.
      unfold status.HTTP_404_NOT_FOUND, status.HTTP_400_BAD_REQUEST,
        status.HTTP_422_UNPROCESSABLE_ENTITY,
        status.HTTP_500_INTERNAL_SERVER_ERROR,
        status.HTTP_503_SERVICE_UNAVAILABLE in *.
      destruct op; intuition lia.
    + destruct Hrun as [(b & [=] & _)|[[= ->] _]].
      by apply (Hfault OtherError).
Qed.

(** X2.  An answer with status 400, 404 or 422 means that nothing was
    written: the table after the request is the table before it, for every
    operation, every request and every behaviour of the store. *)
Theorem client_error_writes_nothing op t o c d :
  (app t o op).1 = Error c d →
  c = status.HTTP_400_BAD_REQUEST ∨ c = status.HTTP_404_NOT_FOUND ∨
  c = status.HTTP_422_UNPROCESSABLE_ENTITY →
  (app t o op).2 = t.
Proof.
  rewrite app_run. cbn [fst snd]. intros Hr Hc.
  pose proof (run_outcome op t o) as Hrun.
  assert (∀ f, respond (inl (fault_response f)) ≠ Error c d) as Hfault.
  { intros f. destruct f; cbn; intros ?; simplify_eq;
      unfold status.HTTP_400_BAD_REQUEST, status.HTTP_404_NOT_FOUND,
        status.HTTP_422_UNPROCESSABLE_ENTITY,
        status.HTTP_503_SERVICE_UNAVAILABLE,
        status.HTTP_500_INTERNAL_SERVER_ERROR in *; lia. }
  destruct (raised o _) as [f|].
  - rewrite Hrun in Hr. by destruct (Hfault f).
  - destruct (refused op t) as [e'|]; [by destruct Hrun|].
    destruct Hrun as [(b & Hb & _)|[Hb _]]; rewrite Hb in Hr; [done|].
    by destruct (Hfault OtherError).
Qed.

(** X3.  Whenever the store raises, the kind of exception alone decides
    the answer, whichever call raised and whatever the request: 503
    "Database error occurred" for an SQLAlchemyError, 500 "Internal server
    error" for any other exception. *)
Theorem store_exception_status op t o f :
  raised o (handler op (SessionLocal t o)).2 = Some f →
  (app t o op).1 =
    match f with
    | DBError =>
        Error status.HTTP_503_SERVICE_UNAVAILABLE "Database error occurred"
    | OtherError =>
        Error status.HTTP_500_INTERNAL_SERVER_ERROR "Internal server error"
    end.
Proof.
  intros Hf. rewrite app_run. cbn [fst].
  pose proof (run_outcome op t o) as Hrun. rewrite Hf in Hrun.
  rewrite Hrun. by destruct f.
Qed.

(** X4.  A success answer tells what the table holds.  The record in the
    answer to a create or an update carries the key the operation wrote
    under, the named key for an update and the newly assigned one for a
    create, and a lookup of that key right afterwards returns exactly that
    record; after a successful delete, a lookup of the deleted key finds
    nothing. *)
Theorem success_matches_store op t o b :
  (app t o op).1 = Ok b →
  match b with
  | ItemBody s it =>
      s = "success" ∧
      ∃ k, id it = Some k ∧
           from_option Some (next_rowid t) (target op) = Some k ∧
           ∀ o', no_faults o' →
             get (app t o op).2 o' k = (inr (Some it), (app t o op).2)
  | MessageBody s m =>
      s = "success" ∧
      ∃ k, target op = Some k ∧
           m = "Item " +:+ pretty k +:+ " deleted successfully" ∧
           ∀ o', no_faults o' →
             get (app t o op).2 o' k = (inr None, (app t o op).2)
  end.
Proof.
  rewrite app_run. cbn [fst snd]. intros Hr.
  pose proof (run_outcome op t o) as Hrun.
  destruct (raised o _) as [f|].
  { rewrite Hrun in Hr. by destruct f. }
  destruct (refused op t) as [e'|].
  { destruct Hrun as [Hrun _]. rewrite Hrun in Hr. by destruct e'. }
  destruct Hrun as [(b' & Hb & Hs)|[Hb _]]; last first.
  { by rewrite Hb in Hr. }
  rewrite Hb in Hr. cbn in Hr.
  simplify_eq. destruct op as [req|item_id req|item_id];
    cbn [succeeded target from_option] in *.
  - destruct Hs as (data & k & _ & Hk & Hrange & -> & ->). split; [done|].
    exists k. repeat split; [done|]. intros o' Ho'.
    rewrite (get_present _ _ _ (row_of_data data)); [done..|].
    apply lookup_insert_eq.
  - destruct Hs as (data & _ & Hrange & -> & ->). split; [done|].
    exists item_id. repeat split. intros o' Ho'.
    rewrite (get_present _ _ _ (row_of_data data)); [done..|].
    apply lookup_insert_eq.
  - destruct Hs as (Hrange & -> & ->). split; [done|].
    exists item_id. repeat split. intros o' Ho'.
    rewrite get_absent; [done..|]. apply lookup_delete_eq.
Qed.

End outcomes.

(** ** Compositions *)

Section compositions.
Context `{Pydantic} `{Sqlite}.

Lemma PUT_items_checked item_id req data row t o :
  in_int64 item_id → t !! item_id = Some row → decode_update req = inr data →
  0 ≤ ib_price data → 0 ≤ ib_quantity data → no_faults o →
  PUT_items t o item_id req =
    if decide (storable_data data)
    then (Ok (ItemBody "success" (item_of_data item_id data)),
          <[item_id := row_of_data data]> t)
    else (Error status.HTTP_500_INTERNAL_SERVER_ERROR "Internal server error",
          t).
Proof.
  intros Hr Hk Hd Hp Hq Ho. unfold PUT_items, endpoint, get_db.
  rewrite (update_item_commit _ _ _ _ row data) by auto using no_faults_head.
  rewrite (no_faults_head (tail o)) by auto using no_faults_tail.
  case_decide; [|done].
  by rewrite (no_faults_head (tail (tail o))) by auto using no_faults_tail.
Qed.

Lemma PUT_items_overflow item_id req t o :
  ¬ in_int64 item_id → no_faults o →
  PUT_items t o item_id req =
    (Error status.HTTP_500_INTERNAL_SERVER_ERROR "Internal server error", t).
Proof.
  intros Hr Ho. unfold PUT_items.
  by rewrite (endpoint_run _ _ _ _ _
    (update_item_overflow item_id req t o (no_faults_head _ Ho) Hr)).
Qed.


Lemma validate_fields_form_absent n d p q :
  n = None ∨ d = None ∨ p = None ∨ q = None →
  validate_fields (form_kwargs n d p q) = None.
Proof.
  intros Habsent. apply validate_fields_None. unfold ill_typed.
  destruct Habsent as [->|[->|[->| ->]]]; [left|right; left|do 2 right; left|
    do 3 right]; reflexivity.
Qed.

(** X5.  An update of a key the table has, a key that fits the 64-bit
    column, is refused, with the table unchanged, when its payload is not
    valid: with status 422 "Invalid data format" when no body parameter is
    given and a form parameter is absent, with status 400 and the message of
    the first negative field when the payload carries a negative price or
    quantity.  Both hold when the lookup raises no fault. *)
Theorem update_rejects_invalid item_id req t o :
  is_Some (t !! item_id) → in_int64 item_id → no_faults o →
  (item req = None →
   form_name req = None ∨ form_description req = None ∨
   form_price req = None ∨ form_quantity req = None →
   PUT_items t o item_id req =
     (Error status.HTTP_422_UNPROCESSABLE_ENTITY "Invalid data format", t)) ∧
  (∀ data,
     update_payload req data →
     ib_price data < 0 ∨ ib_quantity data < 0 →
     PUT_items t o item_id req =
       (Error status.HTTP_400_BAD_REQUEST
          (if decide (ib_price data < 0) then "Price cannot be negative"
           else "Quantity cannot be negative"), t)).
Proof.
  intros [row Hk] Hr Ho%no_faults_head. split.
  - intros Hitem Habsent. unfold PUT_items.
    rewrite (endpoint_run _ _ _ _ _
      (update_item_invalid item_id req t o row _ _ Ho Hr Hk
         ltac:(unfold decode_update;
               by rewrite Hitem, validate_fields_form_absent))).
    done.
  - intros data Hpl%decode_update_payload Hneg. unfold PUT_items.
    by rewrite (endpoint_run _ _ _ _ _
      (update_item_negative item_id req t o row data Ho Hr Hk Hpl Hneg)).
Qed.

(** X6.  An update is idempotent: sending the same valid update of a key
    the table has again, with no fault of the store, gives the same answer
    and leaves the table as the first one left it. *)
Theorem update_idempotent item_id req data t o o' :
  is_Some (t !! item_id) → update_payload req data →
  0 ≤ ib_price data → 0 ≤ ib_quantity data →
  no_faults o → no_faults o' →
  PUT_items (PUT_items t o item_id req).2 o' item_id req =
    PUT_items t o item_id req.
Proof.
  intros [row Hk] Hpl%decode_update_payload Hp Hq Ho Ho'.
  destruct (decide (in_int64 item_id)) as [Hr|Hr]; last first.
  { by rewrite !PUT_items_overflow by done. }
  rewrite (PUT_items_checked _ _ data row t o) by done.
  destruct (decide (storable_data data)) as [Hst|Hst]; cbn [snd].
  - rewrite (PUT_items_checked _ _ data (row_of_data data));
      [|done|..|done|done|done|done].
    + by rewrite decide_True, insert_insert_eq by done.
    + apply lookup_insert_eq.
  - rewrite (PUT_items_checked _ _ data row t o') by done.
    by rewrite decide_False by done.
Qed.



(** X9.  Under the JSON Content-Type, a body that does not parse or is
    not a JSON object is answered with status 500 "Internal server error",
    not with 422, and nothing is written. *)
Theorem json_body_not_an_object req t o :
  content_type req = Some "application/json" →
  (∀ kw, json req ≠ Some (PDict kw)) →
  POST_items t o req =
    (Error status.HTTP_500_INTERNAL_SERVER_ERROR "Internal server error", t).
Proof.
  intros Hct Hj. unfold POST_items.
  assert (payload req = None) as Hpl.
  { unfold payload. rewrite decide_True by done.
    destruct (json req) as [[]|]; try done. by destruct (Hj d). }
  by rewrite (endpoint_run _ _ _ _ _ (create_item_no_payload req _ Hpl)).
Qed.

End compositions.

(** ** The home page *)

Lemma find_loaded_fresh t o (done : list (Z * Row)) k :
  k ∉ done.*1 →
  find_loaded
    (mkWorld t o (load_pair <$> done) [] [] (seq 0 (length done))) k = None.
Proof.
  intros Hk. unfold find_loaded. cbn [heap identity_map].
  destruct (head _) as [r|] eqn:Hr; [|done].
  apply head_Some_elem_of, list_elem_of_filter in Hr as [Hr _].
  destruct ((load_pair <$> done) !! r) as [it|] eqn:Hit; [|done].
  cbn in Hr. apply list_lookup_fmap_Some in Hit as ([k' row'] & -> & Hkr).
  cbn in Hr. simplify_eq. destruct Hk.
  apply list_elem_of_fmap. exists (k, row'). split; [done|].
  by eapply list_elem_of_lookup_2.
Qed.

Lemma foldl_load_row_fresh t o (l done : list (Z * Row)) :
  NoDup ((done ++ l).*1) →
  foldl load_row
    (seq 0 (length done),
     mkWorld t o (load_pair <$> done) [] [] (seq 0 (length done))) l =
  (seq 0 (length (done ++ l)),
   mkWorld t o (load_pair <$> (done ++ l)) [] []
     (seq 0 (length (done ++ l)))).
Proof.
  revert done. induction l as [|kr l IH]; intros done Hnd.
  - by rewrite app_nil_r.
  - cbn [foldl]. unfold load_row at 2.
    rewrite find_loaded_fresh; last first.
    { rewrite fmap_app, fmap_cons in Hnd.
      apply NoDup_app in Hnd as (_ & Hnd & _).
      intros Hin. apply (Hnd _ Hin). by left. }
    unfold with_identity_map, with_heap.
    cbn [heap identity_map table oracle new deleted].
    rewrite length_fmap.
    replace (seq 0 (length done) ++ [length done]) with
      (seq 0 (length (done ++ [kr]))) by (by rewrite length_app, seq_app).
    replace ((load_pair <$> done) ++ [load kr.1 kr.2]) with
      (load_pair <$> (done ++ [kr])) by (by rewrite fmap_app).
    rewrite IH; rewrite <- (assoc_L (++)); done.
Qed.

Lemma rows_by_key_Permutation t : rows_by_key t ≡ₚ map_to_list t.
Proof. apply merge_sort_Permutation. Qed.

Lemma rows_by_key_NoDup t : NoDup (rows_by_key t).*1.
Proof.
  rewrite (rows_by_key_Permutation t). apply NoDup_fst_map_to_list.
Qed.

Lemma rows_by_key_length t : length (rows_by_key t) = size t.
Proof. by rewrite (rows_by_key_Permutation t), length_map_to_list. Qed.

Lemma rows_by_key_elem_of t k row :
  (k, row) ∈ rows_by_key t ↔ t !! k = Some row.
Proof. by rewrite (rows_by_key_Permutation t), elem_of_map_to_list. Qed.

Lemma StronglySorted_lookup {A} (R : relation A) l i j a b :
  StronglySorted R l → l !! i = Some a → l !! j = Some b → (i < j)%nat →
  R a b.
Proof.
  intros Hs Hi Hj Hij. rewrite <- (take_drop j l) in Hs.
  apply (StronglySorted_app_1_elem_of _ _ _ _ _ Hs).
  - apply list_elem_of_lookup. exists i. by rewrite lookup_take_lt.
  - apply list_elem_of_lookup. exists 0%nat.
    by rewrite lookup_drop, Nat.add_0_r.
Qed.

(** The rows come by strictly ascending key. *)
Lemma rows_by_key_ascending t i j a b :
  rows_by_key t !! i = Some a → rows_by_key t !! j = Some b → (i < j)%nat →
  a.1 < b.1.
Proof.
  intros Hi Hj Hij.
  assert (key_le a b) as Hle.
  { apply (StronglySorted_lookup key_le (rows_by_key t) i j); [|done..].
    apply StronglySorted_merge_sort; apply _. }
  unfold key_le in Hle.
  destruct (decide (a.1 = b.1)) as [Heq|]; [|lia].
  assert (i = j); [|lia].
  apply (NoDup_lookup _ i j a.1 (rows_by_key_NoDup t));
    rewrite list_lookup_fmap; [by rewrite Hi|by rewrite Hj, Heq].
Qed.

Lemma query_all_run t o :
  mjoin (head o) = None →
  query_all (SessionLocal t o) =
    (inr (seq 0 (size t)),
     mkWorld t (tail o) (all_items t) [] [] (seq 0 (size t))).
Proof.
  intros Ho. unfold query_all, bind, SessionLocal.
  rewrite db_call_ok by done. cbn [table].
  pose proof (foldl_load_row_fresh t (tail o) (rows_by_key t) []
                (rows_by_key_NoDup t)) as Hfold.
  rewrite app_nil_l, rows_by_key_length in Hfold.
  change (foldl load_row ([], mkWorld t (tail o) [] [] [] [])
            (rows_by_key t) =
          (seq 0 (size t),
           mkWorld t (tail o) (all_items t) [] [] (seq 0 (size t))))
    in Hfold.
  by rewrite Hfold.
Qed.

Lemma deref_all_run t o n d im (l2 l1 : list Item) :
  deref_all (seq (length l1) (length l2)) (mkWorld t o (l1 ++ l2) n d im) =
    (inr l2, mkWorld t o (l1 ++ l2) n d im).
Proof.
  revert l1. induction l2 as [|it l2 IH]; intros l1; [done|].
  cbn [length seq deref_all]. unfold bind, deref. cbn [heap].
  rewrite list_lookup_middle by done.
  specialize (IH (l1 ++ [it])). rewrite length_app, Nat.add_1_r in IH.
  replace ((l1 ++ [it]) ++ l2) with (l1 ++ it :: l2) in IH
    by (by rewrite <- (assoc_L (++))).
  by rewrite IH.
Qed.

Lemma all_items_elem_of t it :
  it ∈ all_items t ↔ ∃ k row, t !! k = Some row ∧ it = load k row.
Proof.
  unfold all_items. rewrite list_elem_of_fmap. split.
  - intros ([k row] & -> & Hkr%rows_by_key_elem_of). by exists k, row.
  - intros (k & row & Hk & ->). exists (k, row).
    split; [done|]. by apply rows_by_key_elem_of.
Qed.

Lemma all_items_NoDup t : NoDup (all_items t).
Proof.
  unfold all_items. apply NoDup_fmap_2_strong.
  - intros [k1 r1] [k2 r2] _ _. unfold load_pair, load. cbn.
    destruct r1, r2. cbn. congruence.
  - eapply NoDup_fmap_1, rows_by_key_NoDup.
Qed.

Lemma all_items_length t : length (all_items t) = size t.
Proof. unfold all_items. by rewrite length_fmap, rows_by_key_length. Qed.

Lemma all_items_ascending t i j a b :
  all_items t !! i = Some a → all_items t !! j = Some b → (i < j)%nat →
  ∃ ka kb, id a = Some ka ∧ id b = Some kb ∧ ka < kb.
Proof.
  unfold all_items. rewrite !list_lookup_fmap.
  destruct (rows_by_key t !! i) as [ra|] eqn:Hi; [|done].
  destruct (rows_by_key t !! j) as [rb|] eqn:Hj; [|done].
  intros [= <-] [= <-] Hij. exists ra.1, rb.1.
  repeat split. by apply (rows_by_key_ascending t i j).
Qed.

Section home_page.
Context `{Templates}.

Lemma home_fault request t o f :
  mjoin (head o) = Some f →
  home request (SessionLocal t o) =
    (inl (match f with
          | DBError =>
              HTTPException status.HTTP_503_SERVICE_UNAVAILABLE
                "Database service unavailable"
          | OtherError =>
              HTTPException status.HTTP_500_INTERNAL_SERVER_ERROR
                "Internal server error"
          end), SessionLocal t (tail o)).
Proof.
  intros Hf. unfold home, try_except, bind, query_all, bind, SessionLocal.
  rewrite (db_call_fault _ _ _ _ _ _ f) by done. by destruct f.
Qed.

Lemma home_run request t o :
  mjoin (head o) = None →
  home request (SessionLocal t o) =
    (match render "index.html" request (all_items t) with
     | Some html => inr html
     | None =>
         inl (HTTPException status.HTTP_500_INTERNAL_SERVER_ERROR
                "Internal server error")
     end,
     mkWorld t (tail o) (all_items t) [] [] (seq 0 (size t))).
Proof.
  intros Ho. unfold home, try_except, bind.
  rewrite query_all_run by done.
  pose proof (deref_all_run t (tail o) [] [] (seq 0 (size t))
                (all_items t) []) as Hderef.
  rewrite app_nil_l in Hderef. cbn [length] in Hderef.
  rewrite all_items_length in Hderef.
  rewrite Hderef. unfold TemplateResponse.
  by destruct (render _ _ _).
Qed.

(** X10.  The home page never writes: whatever the request, the template
    and the store do, the table after it is the table before it.  When the
    query raises an SQLAlchemyError the answer is 503 "Database service
    unavailable"; when it raises anything else the answer is 500 "Internal
    server error". *)
Theorem home_read_only request t o :
  (GET_root t o request).2 = t ∧
  (head o = Some (Some DBError) →
   (GET_root t o request).1 =
     PageError status.HTTP_503_SERVICE_UNAVAILABLE
       "Database service unavailable") ∧
  (head o = Some (Some OtherError) →
   (GET_root t o request).1 =
     PageError status.HTTP_500_INTERNAL_SERVER_ERROR "Internal server error").
Proof.
  unfold GET_root, get_db.
  destruct (mjoin (head o)) as [f|] eqn:Hf.
  - rewrite (home_fault _ _ _ f) by done. cbn.
    split; [done|]. split; intros Ho; rewrite Ho in Hf; cbn in Hf;
      by simplify_eq.
  - rewrite home_run by done. cbn.
    split; [done|]. split; intros Ho; by rewrite Ho in Hf.
Qed.

(** X11.  When the query raises no fault, the home page renders the
    template "index.html" on the rows of the table: every row appears, as
    the record with its key and its four columns, exactly once, and nothing
    else appears; the records come by ascending key.  A rendering that
    raises is answered with 500 "Internal server error". *)
Theorem home_lists_rows request t o :
  no_faults o →
  ∃ items,
    (∀ it, it ∈ items ↔
           ∃ k row, t !! k = Some row ∧
                    it = mkItem (Some k) (row_name row) (row_description row)
                           (row_price row) (row_quantity row)) ∧
    NoDup items ∧ length items = size t ∧
    (∀ i j a b, items !! i = Some a → items !! j = Some b → (i < j)%nat →
                ∃ ka kb, id a = Some ka ∧ id b = Some kb ∧ ka < kb) ∧
    GET_root t o request =
      (match render "index.html" request items with
       | Some html => Page html
       | None =>
           PageError status.HTTP_500_INTERNAL_SERVER_ERROR
             "Internal server error"
       end, t).
Proof.
  intros Ho%no_faults_head. exists (all_items t).
  split; [apply all_items_elem_of|]. split; [apply all_items_NoDup|].
  split; [apply all_items_length|].
  split; [apply all_items_ascending|].
  unfold GET_root, get_db. rewrite home_run by done.
  by destruct (render _ _ _).
Qed.

End home_page.

(** ** The further properties on the scenarios *)

Lemma handlers_raise_known_status_witness :
  ∃ c d,
    not_found 999 = HTTPException c d ∧ c ∈ known_status ∧
    c ≠ status.HTTP_400_BAD_REQUEST ∧
    c ≠ status.HTTP_422_UNPROCESSABLE_ENTITY.
Proof.
  apply (@handlers_raise_known_status strict no_candidate (Delete 999) ∅ []
           (not_found 999)).
  reflexivity.
Defined.

Lemma client_error_writes_nothing_witness :
  (@app strict no_candidate {[1 := widget_row]} []
     (Create (json_request bad))).2 =
    {[1 := widget_row]}.
Proof.
  apply (@client_error_writes_nothing strict no_candidate
           (Create (json_request bad))
           {[1 := widget_row]} [] 400 "Price cannot be negative").
  - reflexivity.
  - left. reflexivity.
Defined.

Lemma store_exception_status_witness :
  (@app strict no_candidate {[1 := widget_row]} [None; Some OtherError]
     (Delete 1)).1 =
    Error 500 "Internal server error".
Proof.
  apply (@store_exception_status strict no_candidate (Delete 1)
           {[1 := widget_row]} [None; Some OtherError] OtherError).
  reflexivity.
Defined.

Lemma success_matches_store_witness :
  get (@app strict no_candidate {[1 := widget_row]} []
         (Update 1 (form_request (Some "Gadget") (Some "A gadget")
                      (Some 12) (Some 0)))).2 [] 1 =
    (inr (Some (mkItem (Some 1) "Gadget" "A gadget" 12 0)),
     (@app strict no_candidate {[1 := widget_row]} []
        (Update 1 (form_request (Some "Gadget") (Some "A gadget")
                     (Some 12) (Some 0)))).2).
Proof.
  destruct (@success_matches_store strict no_candidate
              (Update 1 (form_request (Some "Gadget") (Some "A gadget")
                           (Some 12) (Some 0)))
              {[1 := widget_row]} []
              (ItemBody "success" (mkItem (Some 1) "Gadget" "A gadget" 12 0)))
    as (_ & k & Hid & _ & Hget).
  - reflexivity.
  - injection Hid as <-. apply Hget. constructor.
Defined.

Lemma update_rejects_invalid_witness :
  @PUT_items strict no_candidate {[1 := widget_row]} [] 1
    (json_request widget) =
    (Error 422 "Invalid data format", {[1 := widget_row]}).
Proof.
  destruct (@update_rejects_invalid strict no_candidate 1
              (json_request widget)
              {[1 := widget_row]} []) as [Habsent _].
  - exists widget_row. reflexivity.
  - unfold in_int64, INT64_MIN, INT64_MAX. lia.
  - constructor.
  - apply Habsent; [reflexivity|]. left. reflexivity.
Defined.

Lemma update_idempotent_witness :
  @PUT_items strict no_candidate
    (@PUT_items strict no_candidate {[1 := widget_row]} [] 1
       (form_request (Some "Gadget") (Some "A gadget") (Some 12) (Some 0))).2
    [] 1
    (form_request (Some "Gadget") (Some "A gadget") (Some 12) (Some 0)) =
  @PUT_items strict no_candidate {[1 := widget_row]} [] 1
    (form_request (Some "Gadget") (Some "A gadget") (Some 12) (Some 0)).
Proof.
  apply (@update_idempotent strict no_candidate 1
           (form_request (Some "Gadget") (Some "A gadget") (Some 12) (Some 0))
           (mkItemBase "Gadget" "A gadget" 12 0) {[1 := widget_row]} [] []).
  - exists widget_row. reflexivity.
  - right. repeat split; reflexivity.
  - cbn. lia.
  - cbn. lia.
  - constructor.
  - constructor.
Defined.



Lemma json_body_not_an_object_witness :
  @POST_items strict no_candidate {[1 := widget_row]} []
    (mkRequest (Some "application/json") (Some (PList [])) None
       None None None None) =
    (Error 500 "Internal server error", {[1 := widget_row]}).
Proof.
  apply (@json_body_not_an_object strict no_candidate).
  - reflexivity.
  - intros kw. discriminate.
Defined.

Lemma home_read_only_witness :
  (@GET_root names_template {[1 := widget_row]} [Some DBError]
     (form_request None None None None)).1 =
    PageError 503 "Database service unavailable".
Proof.
  apply (@home_read_only names_template (form_request None None None None)
           {[1 := widget_row]} [Some DBError]).
  reflexivity.
Defined.

Lemma home_lists_rows_witness :
  ∃ items,
    (∀ it, it ∈ items ↔
           ∃ k row, ({[1 := widget_row]} : gmap Z Row) !! k = Some row ∧
                    it = mkItem (Some k) (row_name row) (row_description row)
                           (row_price row) (row_quantity row)) ∧
    NoDup items ∧ length items = size ({[1 := widget_row]} : gmap Z Row) ∧
    (∀ i j a b, items !! i = Some a → items !! j = Some b → (i < j)%nat →
                ∃ ka kb, id a = Some ka ∧ id b = Some kb ∧ ka < kb) ∧
    @GET_root names_template {[1 := widget_row]} []
      (form_request None None None None) =
      (match @render names_template "index.html"
               (form_request None None None None) items with
       | Some html => Page html
       | None => PageError 500 "Internal server error"
       end, {[1 := widget_row]}).
Proof.
  apply (@home_lists_rows names_template (form_request None None None None)
           {[1 := widget_row]} []).
  constructor.
Defined.

Lemma rowids_positive_reachable_witness :
  rowids_positive
    (@app strict no_candidate ∅ [] (Create (json_request widget))).2.
Proof.
  apply (@rowids_positive_reachable strict no_candidate ∅).
  - apply map_Forall_empty.
  - apply reachable_step, reachable_refl.
Defined.

Section unknown_fields.
Context `{Pydantic} `{Sqlite}.

(** X13.  Fields of a JSON object other than the four of the model are
    ignored: two JSON requests whose objects agree on name, description,
    price and quantity get the same answer and leave the same table, whatever
    else the objects carry and whatever the store does. *)
Theorem unknown_fields_ignored req1 req2 kw1 kw2 t o :
  is_json_request req1 kw1 → is_json_request req2 kw2 →
  kw1 !! "name" = kw2 !! "name" →
  kw1 !! "description" = kw2 !! "description" →
  kw1 !! "price" = kw2 !! "price" →
  kw1 !! "quantity" = kw2 !! "quantity" →
  POST_items t o req1 = POST_items t o req2.
Proof.
  intros Hj1 Hj2 Hn Hd Hp Hq. apply POST_items_decode.
  unfold decode, unprocessable.
  rewrite (payload_json _ _ Hj1), (payload_json _ _ Hj2).
  destruct Hj1 as [Hct1 _], Hj2 as [Hct2 _].
  rewrite !decide_True by done.
  unfold validate_fields. by rewrite Hn, Hd, Hp, Hq.
Qed.

End unknown_fields.

Lemma unknown_fields_ignored_witness :
  @POST_items strict no_candidate ∅ []
    (json_request (<["id" := PInt 7]> widget)) =
  @POST_items strict no_candidate ∅ [] (json_request widget).
Proof.
  apply (@unknown_fields_ignored strict no_candidate
           (json_request (<["id" := PInt 7]> widget)) (json_request widget)
           (<["id" := PInt 7]> widget) widget ∅ []);
    try reflexivity; split; reflexivity.
Defined.
